(** * copilot_changelog_to_discord.py: a shallow embedding

    Python strings are modelled as lists of Unicode code points ([pystr]),
    so that [len] counts code points as Python does and the ellipsis
    character of [basic_summary] is a single element.  The Seen Set is a
    [gset pystr].  The network (feed, webhook, generation services), the
    HTML stripper and the date parser are the program's boundary: they are
    section variables or oracles carried by the world. *)

From Stdlib Require Import String Ascii ZArith Lia Sorted.
From stdpp Require Import base list gmap sets.

Open Scope Z_scope.

(* ------------------------------------------------------------------ *)
(** ** Python strings *)

Definition pystr := list N.

(** Code points of an ASCII literal. *)
Definition u (s : string) : pystr :=
  map (fun a => N.of_nat (nat_of_ascii a)) (list_ascii_of_string s).

Definition ELLIPSIS : N := 8230%N.   (* U+2026 "…" *)
Definition NEWLINE : N := 10%N.

(** Python truthiness of an optional string ([None] and the empty string
    are falsy). *)
Definition truthy (o : option pystr) : option pystr :=
  match o with
  | Some (_ :: _) as s => s
  | _ => None
  end.

Definition nonempty (s : pystr) : bool :=
  match s with [] => false | _ => true end.

(** [str.isspace] / the regex class [\s] on str patterns. *)
Definition is_space (c : N) : bool :=
  ((9 <=? c) && (c <=? 13))%N || ((28 <=? c) && (c <=? 32))%N
  || (c =? 133)%N || (c =? 160)%N || (c =? 5760)%N
  || ((8192 <=? c) && (c <=? 8202))%N || (c =? 8232)%N || (c =? 8233)%N
  || (c =? 8239)%N || (c =? 8287)%N || (c =? 12288)%N.

(** [str.lower]: the ASCII case mapping (non-ASCII case mappings are not
    modelled). *)
Definition lower_char (c : N) : N :=
  if ((65 <=? c) && (c <=? 90))%N then (c + 32)%N else c.

Definition py_lower (s : pystr) : pystr := map lower_char s.

Fixpoint lstrip_by (p : N -> bool) (s : pystr) : pystr :=
  match s with
  | c :: s' => if p c then lstrip_by p s' else s
  | [] => []
  end.

Definition rstrip_by (p : N -> bool) (s : pystr) : pystr :=
  rev (lstrip_by p (rev s)).

(** [s.strip()] and [s.rstrip()]. *)
Definition py_strip (s : pystr) : pystr := rstrip_by is_space (lstrip_by is_space s).
Definition py_rstrip (s : pystr) : pystr := rstrip_by is_space s.

Definition mem_chars (cs : pystr) (c : N) : bool := existsb (N.eqb c) cs.

Fixpoint prefixb (p s : pystr) : bool :=
  match p, s with
  | [], _ => true
  | a :: p', b :: s' => (a =? b)%N && prefixb p' s'
  | _ :: _, [] => false
  end.

(** [needle in hay]. *)
Fixpoint contains (needle hay : pystr) : bool :=
  prefixb needle hay ||
  match hay with
  | [] => false
  | _ :: hay' => contains needle hay'
  end.

Definition pystr_eqb (a b : pystr) : bool := bool_decide (a = b).

(** [s[:k]] for an integer [k] (negative [k] counts from the end). *)
Definition slice_to (s : pystr) (k : Z) : pystr :=
  if 0 <=? k then firstn (Z.to_nat k) s
  else firstn (Z.to_nat (Z.of_nat (length s) + k)) s.

Definition py_len (s : pystr) : Z := Z.of_nat (length s).

(** [sep.join(xs)]. *)
Fixpoint join (sep : pystr) (xs : list pystr) : pystr :=
  match xs with
  | [] => []
  | [x] => x
  | x :: xs' => x ++ sep ++ join sep xs'
  end.

(** [s.split()]: maximal runs of non-whitespace. *)
Fixpoint split_ws_aux (cur : pystr) (s : pystr) : list pystr :=
  match s with
  | [] => if nonempty cur then [rev cur] else []
  | c :: s' =>
      if is_space c then (if nonempty cur then rev cur :: split_ws_aux [] s'
                          else split_ws_aux [] s')
      else split_ws_aux (c :: cur) s'
  end.
Definition py_split (s : pystr) : list pystr := split_ws_aux [] s.

(** [re.sub(r"\s+", " ", s)]. *)
Fixpoint collapse_ws_aux (in_run : bool) (s : pystr) : pystr :=
  match s with
  | [] => []
  | c :: s' =>
      if is_space c then
        (if in_run then collapse_ws_aux true s' else 32%N :: collapse_ws_aux true s')
      else c :: collapse_ws_aux false s'
  end.
Definition collapse_ws (s : pystr) : pystr := collapse_ws_aux false s.

(** Line boundaries of [str.splitlines]; a ["\r\n"] pair yields an extra
    empty piece, which every caller here filters out. *)
Definition is_line_break (c : N) : bool :=
  ((10 <=? c) && (c <=? 13))%N || ((28 <=? c) && (c <=? 30))%N
  || (c =? 133)%N || (c =? 8232)%N || (c =? 8233)%N.

Fixpoint splitlines_aux (cur : pystr) (s : pystr) : list pystr :=
  match s with
  | [] => if nonempty cur then [rev cur] else []
  | c :: s' =>
      if is_line_break c then rev cur :: splitlines_aux [] s'
      else splitlines_aux (c :: cur) s'
  end.
Definition splitlines (s : pystr) : list pystr := splitlines_aux [] s.

(* ------------------------------------------------------------------ *)
(** ** Entries *)

(** A tag value: a string, or [None] (feedparser leaves [label] as [None]). *)
Inductive TagVal := TStr (s : pystr) | TNone.

(** [str(v)]. *)
Definition tagval_str (v : TagVal) : pystr :=
  match v with TStr s => s | TNone => u "None" end.

(** A tag dict: [term] and [label] keys, each possibly absent. *)
Record Tag := mkTag { term : option TagVal; label : option TagVal }.

(** [EntryDict] (total=False): every key may be absent.  An absent or
    empty [tags] list is the empty list. *)
Record EntryDict := mkEntry {
  e_id : option pystr;
  e_guid : option pystr;
  e_entry_id : option pystr;
  e_title : option pystr;
  e_link : option pystr;
  e_summary : option pystr;
  e_tags : list Tag;
  e_category : option pystr
}.

Definition entry0 : EntryDict := mkEntry None None None None None None [] None.

(** [entry_fingerprint]. *)
Definition entry_fingerprint (entry : EntryDict) : pystr :=
  match truthy (e_id entry) with
  | Some v => v
  | None =>
    match truthy (e_guid entry) with
    | Some v => v
    | None =>
      match truthy (e_entry_id entry) with
      | Some v => v
      | None =>
        match truthy (e_link entry) with
        | Some v => v
        | None => match truthy (e_title entry) with Some v => v | None => [] end
        end
      end
    end
  end.

(** [str(t.get(key, <empty string>))]. *)
Definition tag_get (v : option TagVal) : pystr :=
  match v with Some x => tagval_str x | None => [] end.

Definition needles : list pystr := [u "copilot"; u "github copilot"].

(** The body of [for key in ("term", "label")]. *)
Definition key_hit (val : pystr) : bool :=
  (nonempty val && existsb (pystr_eqb (py_lower val)) needles)
  || contains (u "copilot") (py_lower val).

(** [is_copilot_tagged]. *)
Definition is_copilot_tagged (entry : EntryDict) : bool :=
  existsb (fun t => key_hit (tag_get (term t)) || key_hit (tag_get (label t)))
          (e_tags entry)
  || match e_category entry with
     | Some cat => contains (u "copilot") (py_lower cat)
     | None => false
     end
  || (let title := match truthy (e_title entry) with Some t => t | None => [] end in
      contains (u "copilot") (py_lower title)).

(* ------------------------------------------------------------------ *)
(** ** Configuration (module-level constants read from the environment) *)

Record Env := mkEnv {
  env_DISCORD_WEBHOOK_URL : option pystr;
  env_DISCORD_THREAD_ID : option pystr;
  env_DISCORD_THREAD_NAME : option pystr;
  env_OPENAI_API_KEY : option pystr;
  env_GITHUB_TOKEN : option pystr;
  env_GITHUB_MODELS_TOKEN : option pystr;
  env_DISCORD_FORUM_MODE : option pystr;
  env_FORCE_POST : option pystr;
  env_DRY_RUN : option pystr
}.

Definition DISCORD_WEBHOOK_URL (env : Env) := env_DISCORD_WEBHOOK_URL env.
Definition DISCORD_THREAD_ID (env : Env) := env_DISCORD_THREAD_ID env.
Definition DISCORD_THREAD_NAME (env : Env) := env_DISCORD_THREAD_NAME env.
Definition OPENAI_API_KEY (env : Env) := env_OPENAI_API_KEY env.

(** [os.environ.get("GITHUB_TOKEN") or os.environ.get("GITHUB_MODELS_TOKEN")]. *)
Definition GITHUB_MODELS_TOKEN (env : Env) : option pystr :=
  match truthy (env_GITHUB_TOKEN env) with
  | Some t => Some t
  | None => env_GITHUB_MODELS_TOKEN env
  end.

(** [os.environ.get("DISCORD_FORUM_MODE", "per-item").strip().lower()]. *)
Definition DISCORD_FORUM_MODE (env : Env) : pystr :=
  py_lower (py_strip (default (u "per-item") (env_DISCORD_FORUM_MODE env))).

(** [os.environ.get(K, <empty>).strip()] is not one of the empty string,
    0, false, False. *)
Definition env_flag (v : option pystr) : bool :=
  let s := py_strip (default [] v) in
  negb (existsb (pystr_eqb s) [[]; u "0"; u "false"; u "False"]).

Definition FORCE_POST (env : Env) : bool := env_flag (env_FORCE_POST env).
Definition DRY_RUN (env : Env) : bool := env_flag (env_DRY_RUN env).

Definition MAX_ITEMS_PER_RUN : nat := 5.

(** The two generation services. *)
Inductive Service := GitHubModels | OpenAI.

(* ------------------------------------------------------------------ *)
(** ** Summarizer *)

Section Summarizer.

(** [strip_html]: BeautifulSoup's [get_text(" ")], a library boundary. *)
Variable strip_html : pystr -> pystr.

(** One chat-completion request to a generation service with a credential,
    a system prompt and a user prompt: [Some msg] when the response is 200
    and [choices[0].message.content] is a string [msg]; [None] for a
    non-200 response, a malformed body or an exception. *)
Variable llm_chat : Service -> pystr -> pystr -> pystr -> option pystr.

Definition summary_text (entry : EntryDict) : pystr := default [] (truthy (e_summary entry)).
Definition title_text (entry : EntryDict) : pystr := default [] (truthy (e_title entry)).

(** [basic_summary]. *)
Definition basic_summary (entry : EntryDict) (max_len : Z) : pystr :=
  let raw := summary_text entry in
  let clean := py_strip (strip_html raw) in
  if py_len clean <=? max_len then clean
  else py_rstrip (slice_to clean (max_len - 1)) ++ [ELLIPSIS].

Definition NL2 : pystr := [NEWLINE; NEWLINE].

(** [build_summary_prompt]. *)
Definition build_summary_prompt (entry : EntryDict) : pystr :=
  let content := strip_html (summary_text entry) in
  let title := title_text entry in
  u "Summarize the following GitHub Changelog item about GitHub Copilot into 2-4 concise "
  ++ u "bullet points suitable for a Discord embed. Be factual and brief." ++ NL2
  ++ u "Title: " ++ title ++ NL2
  ++ u "Content: " ++ content ++ NL2
  ++ u "Respond with only the bullets, each starting with '- '.".

(** [build_title_prompt]. *)
Definition build_title_prompt (entry : EntryDict) : pystr :=
  let content := strip_html (summary_text entry) in
  let title := title_text entry in
  u "Create a concise forum thread title for the following GitHub Copilot changelog item."
  ++ [NEWLINE]
  ++ u "- 4 to 10 words" ++ [NEWLINE] ++ u "- Avoid quotes and ending punctuation"
  ++ [NEWLINE] ++ u "- Max 90 characters" ++ [NEWLINE]
  ++ u "Respond with ONLY the title text." ++ NL2
  ++ u "Original Title: " ++ title ++ NL2
  ++ u "Content: " ++ content ++ [NEWLINE].

Definition SUMMARY_SYSTEM := u "You are a concise release note summarizer.".
Definition TITLE_SYSTEM := u "You are a helpful assistant that writes brief titles.".

(** Post-processing of a summary reply, shared by both services. *)
Definition bullets_of_reply (msg : pystr) : option pystr :=
  if negb (nonempty (py_strip msg)) then None else
  let lines := filter nonempty (map py_strip (splitlines (py_strip msg))) in
  match lines with
  | [] => None
  | _ => Some (join [NEWLINE] (firstn 4 lines))
  end.

Definition llm_bulleted_summary (svc : Service) (entry : EntryDict)
    (api_key : option pystr) : option pystr :=
  match truthy api_key with
  | None => None
  | Some key =>
      match llm_chat svc key SUMMARY_SYSTEM (build_summary_prompt entry) with
      | None => None
      | Some msg => bullets_of_reply msg
      end
  end.

Definition openai_llm_bulleted_summary := llm_bulleted_summary OpenAI.
Definition github_llm_bulleted_summary := llm_bulleted_summary GitHubModels.

(** The character class [[\s\-–—:.,;!?#]]. *)
Definition is_title_trail (c : N) : bool :=
  is_space c || mem_chars (u "-:.,;!?#") c || (c =? 8211)%N || (c =? 8212)%N.

(** The characters removed at both ends by the quote strip of
    [_clean_title]: single quote, double quote, space. *)
Definition QUOTE_CHARS : pystr := [39%N; 34%N; 32%N].

(** [_clean_title]. *)
Definition clean_title (raw : pystr) (max_len : Z) : pystr :=
  let s := py_strip (strip_html raw) in
  let s := collapse_ws s in
  let s := rstrip_by (mem_chars QUOTE_CHARS) (lstrip_by (mem_chars QUOTE_CHARS) s) in
  let s := rstrip_by is_title_trail s in
  if py_len s >? max_len then py_rstrip (slice_to s max_len) else s.

Definition llm_thread_title (svc : Service) (entry : EntryDict)
    (api_key : option pystr) : option pystr :=
  match truthy api_key with
  | None => None
  | Some key =>
      match llm_chat svc key TITLE_SYSTEM (build_title_prompt entry) with
      | None => None
      | Some msg =>
          if negb (nonempty (py_strip msg)) then None
          else truthy (Some (clean_title msg 90))
      end
  end.

Definition openai_llm_thread_title := llm_thread_title OpenAI.
Definition github_llm_thread_title := llm_thread_title GitHubModels.

(** [summarize_entry]. *)
Definition summarize_entry (env : Env) (entry : EntryDict) : pystr :=
  match truthy (github_llm_bulleted_summary entry (GITHUB_MODELS_TOKEN env)) with
  | Some summary => summary
  | None =>
      match truthy (openai_llm_bulleted_summary entry (OPENAI_API_KEY env)) with
      | Some summary => summary
      | None => basic_summary entry 420
      end
  end.

(** [re.split(r"[.!?]\s|\n", bs, maxsplit=1)[0]]. *)
Fixpoint first_sentence (s : pystr) : pystr :=
  match s with
  | [] => []
  | c :: s' =>
      if (c =? NEWLINE)%N then []
      else if mem_chars (u ".!?") c
              && match s' with d :: _ => is_space d | [] => false end
      then []
      else c :: first_sentence s'
  end.

(** [derive_thread_name]. *)
Definition derive_thread_name (env : Env) (entry : EntryDict) : pystr :=
  match truthy (github_llm_thread_title entry (GITHUB_MODELS_TOKEN env)) with
  | Some title => title
  | None =>
  match truthy (openai_llm_thread_title entry (OPENAI_API_KEY env)) with
  | Some title => title
  | None =>
    let raw := py_strip (title_text entry) in
    if nonempty raw then clean_title raw 90 else
    let bs := basic_summary entry 90 in
    let first := first_sentence bs in
    let words := py_split first in
    let first := if (10 <? length words)%nat then join [32%N] (firstn 10 words) else first in
    clean_title (if nonempty first then first else u "GitHub Copilot Changelog") 90
  end
  end.

End Summarizer.

(* ------------------------------------------------------------------ *)
(** ** Seen-Set store *)

(** The contents of [seen.json]: missing, not valid JSON, a JSON array (of
    the [str()] forms of its elements), or some other JSON document. *)
Inductive StateFile :=
| FileMissing
| FileCorrupt
| FileArray (xs : list pystr)
| FileOtherJson.

(** [load_state]. *)
Definition load_state (f : StateFile) : gset pystr :=
  match f with
  | FileArray xs => list_to_set xs
  | _ => ∅
  end.

(** Code-point order of Python's [<] on [str]. *)
Fixpoint str_leb (a b : pystr) : bool :=
  match a, b with
  | [], _ => true
  | _ :: _, [] => false
  | x :: a', y :: b' => (x <? y)%N || ((x =? y)%N && str_leb a' b')
  end.

Fixpoint insert_sorted (x : pystr) (l : list pystr) : list pystr :=
  match l with
  | [] => [x]
  | y :: l' => if str_leb x y then x :: l else y :: insert_sorted x l'
  end.

(** [sorted(xs)]. *)
Definition py_sorted (xs : list pystr) : list pystr := fold_right insert_sorted [] xs.

(** [save_state]: the file written, as a function of the file found. *)
Definition save_state (ids : list pystr) (f : StateFile) : StateFile :=
  let existing := load_state f in
  let merged := elements (existing ∪ list_to_set ids) in
  FileArray (py_sorted merged).

(* ------------------------------------------------------------------ *)
(** ** Effects: the world and a state monad *)

Record Embed := mkEmbed {
  title : pystr;
  url : pystr;
  description : pystr;
  timestamp : pystr
}.

(** The webhook payload: target URL (with any [thread_id] query), the
    embeds (the footer is a function of each timestamp and is omitted) and
    the optional [thread_name] field. *)
Record Payload := mkPayload {
  pl_url : pystr;
  pl_embeds : list Embed;
  pl_thread_name : option pystr
}.

(** The result of one webhook request: a status code with the integer
    [code] field of a JSON error body, if any; or a [RequestException]. *)
Inductive HttpOutcome :=
| HttpStatus (status : Z) (err_code : option Z)
| HttpException.

(** Observable events.  [EvAttempt] is a ghost event recorded by [main]
    after each [post_to_discord] call: the positions in [to_send] of the
    entries whose embeds it carried, the thread title passed, and the
    success flag it returned. *)
Inductive Event :=
| EvFetch (feed_url : pystr)
| EvHttpPost (p : Payload) (r : HttpOutcome)
| EvDryRun (p : Payload)
| EvAttempt (idxs : list nat) (thread_name : option pystr) (ok : bool).

Record World := mkWorld {
  w_file : StateFile;                (* seen.json *)
  w_feed : list EntryDict;           (* what the feed fetch returns *)
  w_http : nat -> HttpOutcome;       (* answer to the n-th webhook request *)
  w_nreq : nat;                      (* webhook requests made so far *)
  w_log : list Event
}.

Definition M (A : Type) : Type := World -> A * World.
Definition retM {A} (a : A) : M A := fun w => (a, w).
Definition bindM {A B} (m : M A) (k : A -> M B) : M B :=
  fun w => let (a, w') := m w in k a w'.

Notation "x <<- m ;; k" := (bindM m (fun x => k))
  (at level 100, m at next level, right associativity).

Definition emit (ev : Event) : M unit :=
  fun w => (tt, mkWorld (w_file w) (w_feed w) (w_http w) (w_nreq w) (w_log w ++ [ev])).

Definition http_post (p : Payload) : M HttpOutcome :=
  fun w => let r := w_http w (w_nreq w) in
           (r, mkWorld (w_file w) (w_feed w) (w_http w) (S (w_nreq w))
                       (w_log w ++ [EvHttpPost p r])).

(** [fetch_feed] followed by [feed.get("entries", [])]. *)
Definition fetch_feed (feed_url : pystr) : M (list EntryDict) :=
  fun w => (w_feed w, mkWorld (w_file w) (w_feed w) (w_http w) (w_nreq w)
                              (w_log w ++ [EvFetch feed_url])).

Definition load_state_m : M (gset pystr) := fun w => (load_state (w_file w), w).

Definition save_state_m (ids : list pystr) : M unit :=
  fun w => (tt, mkWorld (save_state ids (w_file w)) (w_feed w) (w_http w)
                        (w_nreq w) (w_log w)).

Definition FEED_URL : pystr := u "https://github.blog/changelog/feed/".

(* ------------------------------------------------------------------ *)
(** ** Notifier and delivery pipeline *)

Section Pipeline.

Variable strip_html : pystr -> pystr.
Variable llm_chat : Service -> pystr -> pystr -> pystr -> option pystr.
(** [entry_datetime_utc] as a sort key, and its [isoformat()]: the date
    parser and the clock are a library boundary. *)
Variable entry_datetime_utc : EntryDict -> Z.
Variable entry_isoformat : EntryDict -> pystr.

Variable env : Env.

(** [post_to_discord]. *)
Definition post_to_discord (embeds : list Embed) (thread_name : option pystr)
    : M (bool * option Z) :=
  match truthy (DISCORD_WEBHOOK_URL env) with
  | None => retM (false, None)
  | Some webhook =>
    match embeds with
    | [] => retM (true, None)
    | _ :: _ =>
      let url := match truthy (DISCORD_THREAD_ID env) with
                 | Some tid => webhook ++ (if contains (u "?") webhook then u "&" else u "?")
                               ++ u "thread_id=" ++ tid
                 | None => webhook
                 end in
      let chosen_thread_name :=
        match truthy thread_name with
        | Some t => Some t
        | None => truthy (DISCORD_THREAD_NAME env)
        end in
      let payload_thread :=
        match chosen_thread_name, truthy (DISCORD_THREAD_ID env) with
        | Some t, None => Some t
        | _, _ => None
        end in
      let payload := mkPayload url embeds payload_thread in
      if DRY_RUN env then
        _ <<- emit (EvDryRun payload) ;; retM (true, None)
      else
        r <<- http_post payload ;;
        retM (match r with
              | HttpStatus code err_code =>
                  if (200 <=? code) && (code <? 300) then (true, None) else (false, err_code)
              | HttpException => (false, None)
              end)
    end
  end.

(** [to_discord_embed] with [use_ai=True]. *)
Definition to_discord_embed (entry : EntryDict) : Embed :=
  mkEmbed (default (u "GitHub Changelog") (e_title entry))
          (default (u "https://github.blog/changelog/") (e_link entry))
          (summarize_entry strip_html llm_chat env entry)
          (entry_isoformat entry).

Definition derive_thread_name' (entry : EntryDict) : pystr :=
  derive_thread_name strip_html llm_chat env entry.

(** The filtering loop of [main]. *)
Fixpoint filter_entries (seen : gset pystr) (entries : list EntryDict) : list EntryDict :=
  match entries with
  | [] => []
  | e :: rest =>
    if negb (is_copilot_tagged e) then filter_entries seen rest else
    let eid := entry_fingerprint e in
    if negb (nonempty eid) then filter_entries seen rest else
    if negb (FORCE_POST env) && bool_decide (eid ∈ seen) then filter_entries seen rest
    else e :: filter_entries seen rest
  end.

(** [filtered.sort(key=entry_datetime_utc)]: a stable sort. *)
Fixpoint insert_by_time (e : EntryDict) (l : list EntryDict) : list EntryDict :=
  match l with
  | [] => [e]
  | y :: l' => if entry_datetime_utc e <? entry_datetime_utc y then e :: l
               else y :: insert_by_time e l'
  end.
Definition sort_by_time (l : list EntryDict) : list EntryDict :=
  fold_left (fun acc e => insert_by_time e acc) l [].

(** [to_send] as computed by [main] from the loaded Seen Set. *)
Definition capped (seen : gset pystr) (entries : list EntryDict) : list EntryDict :=
  firstn MAX_ITEMS_PER_RUN (sort_by_time (filter_entries seen entries)).

(** The per-entry posting loop of the [per-item] mode ([with_title]) and of
    the [auto] fallback (no thread title); returns [(all_ok, posted_ids)]. *)
Fixpoint post_each (with_title : bool) (items : list (nat * EntryDict))
    (all_ok : bool) (posted_ids : list pystr) : M (bool * list pystr) :=
  match items with
  | [] => retM (all_ok, posted_ids)
  | (i, entry) :: rest =>
    let embed := to_discord_embed entry in
    let thread_title := if with_title then Some (derive_thread_name' entry) else None in
    res <<- post_to_discord [embed] thread_title ;;
    let ok_one := fst res in
    _ <<- emit (EvAttempt [i] thread_title ok_one) ;;
    if ok_one then post_each with_title rest all_ok (posted_ids ++ [entry_fingerprint entry])
    else post_each with_title rest false posted_ids
  end.

Definition nonempty_list (l : list pystr) : bool := match l with [] => false | _ => true end.

(** [if posted_ids and not FORCE_POST: save_state(posted_ids)]
    then [return 0 if all_ok else 2]. *)
Definition finish_per_item (res : bool * list pystr) : M Z :=
  let (all_ok, posted_ids) := res in
  _ <<- (if nonempty_list posted_ids && negb (FORCE_POST env)
         then save_state_m posted_ids else retM tt) ;;
  retM (if all_ok then 0 else 2).

(** The batched branches ([explicit_thread], [single], [off]):
    [ok, _ = post_to_discord(embeds, thread_name)];
    [if ok: (if not FORCE_POST: save_state(ids)); return 0]; [return 2]. *)
Definition post_batch (to_send : list EntryDict) (embeds : list Embed)
    (thread_title : option pystr) : M Z :=
  res <<- post_to_discord embeds thread_title ;;
  let ok := fst res in
  _ <<- emit (EvAttempt (seq 0 (length to_send)) thread_title ok) ;;
  if ok then
    _ <<- (if FORCE_POST env then retM tt
           else save_state_m (map entry_fingerprint to_send)) ;;
    retM 0
  else retM 2.

Definition is_Some_b (o : option pystr) : bool := match o with Some _ => true | None => false end.

(** [main]. *)
Definition main : M Z :=
  match truthy (DISCORD_WEBHOOK_URL env) with
  | None => retM 1
  | Some _ =>
  entries <<- fetch_feed FEED_URL ;;
  match entries with
  | [] => retM 0
  | _ :: _ =>
  seen <<- load_state_m ;;
  let filtered := filter_entries seen entries in
  match filtered with
  | [] => retM 0
  | _ :: _ =>
  let to_send := firstn MAX_ITEMS_PER_RUN (sort_by_time filtered) in
  let explicit_thread :=
    is_Some_b (truthy (DISCORD_THREAD_ID env)) || is_Some_b (truthy (DISCORD_THREAD_NAME env)) in
  let mode := DISCORD_FORUM_MODE env in
  let embeds := map to_discord_embed to_send in
  let items := combine (seq 0 (length to_send)) to_send in
  if explicit_thread then post_batch to_send embeds None
  else if pystr_eqb mode (u "per-item") then
    res <<- post_each true items true [] ;; finish_per_item res
  else if pystr_eqb mode (u "single") then
    post_batch to_send embeds (Some (derive_thread_name' (hd entry0 to_send)))
  else if pystr_eqb mode (u "off") then
    post_batch to_send embeds None
  else
    (* auto *)
    let thread_title := derive_thread_name' (hd entry0 to_send) in
    res <<- post_to_discord embeds (Some thread_title) ;;
    let ok := fst res in
    _ <<- emit (EvAttempt (seq 0 (length to_send)) (Some thread_title) ok) ;;
    if ok then
      _ <<- (if FORCE_POST env then retM tt
             else save_state_m (map entry_fingerprint to_send)) ;;
      retM 0
    else
      res' <<- post_each false items true [] ;; finish_per_item res'
  end
  end
  end.

End Pipeline.

(** A run of the program from a fresh process: the webhook request counter
    at zero and an empty event log. *)
Definition run strip_html llm_chat entry_datetime_utc entry_isoformat (env : Env)
    (feed : list EntryDict) (file : StateFile) (http : nat -> HttpOutcome) : Z * World :=
  main strip_html llm_chat entry_datetime_utc entry_isoformat env
       (mkWorld file feed http 0 []).

(** The ghost attempts recorded in an event log. *)
Fixpoint attempts (l : list Event) : list (list nat * option pystr * bool) :=
  match l with
  | [] => []
  | EvAttempt idxs t ok :: l' => (idxs, t, ok) :: attempts l'
  | _ :: l' => attempts l'
  end.

(** A small model of [BeautifulSoup(text, "html.parser").get_text(" ")] for
    markup without entities or comments: the text outside [<...>] tags,
    text pieces separated by a space.  Used only for concrete inputs. *)
Fixpoint strip_tags_aux (in_tag : bool) (cur : pystr) (pieces : list pystr) (s : pystr)
    : list pystr :=
  match s with
  | [] => rev (if nonempty cur then rev cur :: pieces else pieces)
  | c :: s' =>
    if in_tag then
      (if (c =? 62)%N then strip_tags_aux false [] pieces s'
       else strip_tags_aux true cur pieces s')
    else if (c =? 60)%N then
      strip_tags_aux true [] (if nonempty cur then rev cur :: pieces else pieces) s'
    else strip_tags_aux false (c :: cur) pieces s'
  end.
Definition strip_html_model (s : pystr) : pystr := join [32%N] (strip_tags_aux false [] [] s).

(* ------------------------------------------------------------------ *)
(** ** Spec-side vocabulary and concrete inputs *)

(** [kw] occurs in [s] as a substring up to (ASCII) case. *)
Definition occurs_ci (kw s : pystr) : Prop :=
  exists pre mid post, s = pre ++ mid ++ post /\ map lower_char mid = map lower_char kw.

(** The text of a tag field that holds a string. *)
Definition tag_field_text (v : option TagVal) : option pystr :=
  match v with Some (TStr s) => Some s | _ => None end.

Definition env_none : Env := mkEnv None None None None None None None None None.
Definition no_llm : Service -> pystr -> pystr -> pystr -> option pystr := fun _ _ _ _ => None.

Definition entry_with_summary (s : string) : EntryDict :=
  mkEntry None None None None None (Some (u s)) [] None.

(** ** Observations of a run of [main] *)

(** The attempts made by a per-entry loop over [items] whose successive
    [post_to_discord] calls returned [oks], with thread title [titles e]. *)
Fixpoint attempts_of (titles : EntryDict -> option pystr) (items : list (nat * EntryDict))
    (oks : list bool) : list (list nat * option pystr * bool) :=
  match items, oks with
  | (i, e) :: items', ok :: oks' => ([i], titles e, ok) :: attempts_of titles items' oks'
  | _, _ => []
  end.

(** The identifiers such a loop collects in [posted_ids]. *)
Fixpoint posted_of (items : list (nat * EntryDict)) (oks : list bool) : list pystr :=
  match items, oks with
  | (i, e) :: items', ok :: oks' =>
      (if ok then [entry_fingerprint e] else []) ++ posted_of items' oks'
  | _, _ => []
  end.

(** The branch of [main] chosen by the configuration. *)
Inductive Branch := BExplicit | BPerItem | BSingle | BOff | BAuto.

Definition branch (env : Env) : Branch :=
  if is_Some_b (truthy (DISCORD_THREAD_ID env)) || is_Some_b (truthy (DISCORD_THREAD_NAME env))
  then BExplicit
  else if pystr_eqb (DISCORD_FORUM_MODE env) (u "per-item") then BPerItem
  else if pystr_eqb (DISCORD_FORUM_MODE env) (u "single") then BSingle
  else if pystr_eqb (DISCORD_FORUM_MODE env) (u "off") then BOff
  else BAuto.

(** Position [i] of [to_send] was carried by a [post_to_discord] call that
    returned success. *)
Definition delivered (log : list Event) (i : nat) : Prop :=
  exists idxs t, In (idxs, t, true) (attempts log) /\ In i idxs.

(** A [post_to_discord] result under dry run with a webhook URL is a success. *)
Definition dry_ok (env : Env) (ok : bool) : Prop :=
  DRY_RUN env = true -> truthy (DISCORD_WEBHOOK_URL env) <> None -> ok = true.

(** What a run that reaches the posting stage does, branch by branch: the
    attempts it makes, its exit code and the state file it leaves. *)
Definition outcome (env : Env) (derive : EntryDict -> pystr) (to_send : list EntryDict)
    (file : StateFile) (code : Z) (log : list Event) (file' : StateFile) : Prop :=
  let n := length to_send in
  let items := combine (seq 0 n) to_send in
  let all_ids := map entry_fingerprint to_send in
  let batch t :=
    exists ok, dry_ok env ok /\
      attempts log = [(seq 0 n, t, ok)] /\ code = (if ok then 0 else 2) /\
      file' = (if ok && negb (FORCE_POST env) then save_state all_ids file else file) in
  let per_item pre titles :=
    exists oks, length oks = n /\ Forall (dry_ok env) oks /\
      attempts log = pre ++ attempts_of titles items oks /\
      code = (if forallb id oks then 0 else 2) /\
      file' = (let posted := posted_of items oks in
               if nonempty_list posted && negb (FORCE_POST env)
               then save_state posted file else file) in
  match branch env with
  | BExplicit => batch None
  | BPerItem => per_item [] (fun e => Some (derive e))
  | BSingle => batch (Some (derive (hd entry0 to_send)))
  | BOff => batch None
  | BAuto =>
      let t := derive (hd entry0 to_send) in
      (attempts log = [(seq 0 n, Some t, true)] /\ code = 0 /\
       file' = (if FORCE_POST env then file else save_state all_ids file))
      \/ (dry_ok env false /\ per_item [(seq 0 n, Some t, false)] (fun _ => None))
  end.

(** ** Concrete runs *)

(** A feed entry with an [id], a title and a one-sentence summary. *)
Definition cx_entry (id title : string) : EntryDict :=
  mkEntry (Some (u id)) None None (Some (u title))
          (Some (u "https://github.blog/changelog/x")) (Some (u "<p>Copilot change.</p>"))
          [] None.

(** A configuration with a webhook URL and no thread target, with the given
    [DISCORD_FORUM_MODE], [FORCE_POST] and [DRY_RUN] variables. *)
Definition cx_env (mode force dry : option string) : Env :=
  mkEnv (Some (u "https://discord.test/api/webhooks/1")) None None None None None
        (option_map u mode) (option_map u force) (option_map u dry).

(** Dry run with no webhook URL. *)
Definition env_dry_nourl : Env := mkEnv None None None None None None None None (Some (u "1")).

(** A webhook that accepts every request; one that rejects the first. *)
Definition http_ok : nat -> HttpOutcome := fun _ => HttpStatus 204 None.
Definition http_fail_first : nat -> HttpOutcome :=
  fun n => match n with O => HttpStatus 400 None | S _ => HttpStatus 204 None end.

Definition http_reject : nat -> HttpOutcome := fun _ => HttpStatus 400 None.

Definition cx_feed1 : list EntryDict := [cx_entry "a" "Copilot one"].
Definition cx_feed2 : list EntryDict := [cx_entry "a" "Copilot one"; cx_entry "b" "Copilot two"].

Definition cx_embed : Embed := mkEmbed (u "Copilot one") (u "https://github.blog/changelog/x")
                                       (u "Copilot change.") (u "2025-01-01T00:00:00+00:00").
Definition cx_world : World := mkWorld FileMissing [] http_ok 0 [].

Definition cx_datetime (e : EntryDict) : Z := 0.
Definition cx_isoformat (e : EntryDict) : pystr := u "2025-01-01T00:00:00+00:00".

(** A run with the tag-dropping HTML model, no generation service, and all
    entries published at the same instant. *)
Definition cx_run (env : Env) (feed : list EntryDict) (file : StateFile)
    (http : nat -> HttpOutcome) : Z * World :=
  run strip_html_model no_llm cx_datetime cx_isoformat env feed file http.

(** ** Vocabulary of the further properties *)

(** The test the filtering loop of [main] applies to one entry. *)
Definition keep_entry (env : Env) (seen : gset pystr) (e : EntryDict) : bool :=
  is_copilot_tagged e && nonempty (entry_fingerprint e)
  && (FORCE_POST env || negb (bool_decide (entry_fingerprint e ∈ seen))).

(** The webhook request counter agrees with the logged [post_to_discord]
    calls: one request per call, none under dry run. *)
Definition req_inv (env : Env) (w : World) : Prop :=
  w_nreq w = (if DRY_RUN env then 0%nat else length (attempts (w_log w))).

(** A string with no [str.splitlines] boundary. *)
Definition no_break (l : pystr) : Prop := Forall (fun c => is_line_break c = false) l.

(** Every whitespace character is a space that no whitespace follows. *)
Fixpoint ws_norm (s : pystr) : bool :=
  match s with
  | [] => true
  | c :: s' =>
      (if is_space c then (c =? 32)%N && match s' with d :: _ => negb (is_space d) | [] => true end
       else true) && ws_norm s'
  end.

(* ================================================================== *)
(** * Properties *)

(** ** Strings *)

Lemma lstrip_by_length p s : (length (lstrip_by p s) <= length s)%nat.
Proof. induction s as [|c s IH]; simpl; [lia|]. destruct (p c); simpl; lia. Qed.

Lemma rstrip_by_length p s : (length (rstrip_by p s) <= length s)%nat.
Proof.
  unfold rstrip_by. rewrite length_rev.
  etransitivity; [apply lstrip_by_length|]. rewrite length_rev. lia.
Qed.

Lemma prefixb_spec p h : prefixb p h = true <-> exists post, h = p ++ post.
Proof.
  revert h; induction p as [|a p IH]; intros h; simpl.
  - split; [eauto|done].
  - destruct h as [|b h].
    + split; [done|]. intros [post ?]. done.
    + rewrite andb_true_iff, N.eqb_eq, IH. split.
      * intros [-> [post ->]]. eauto.
      * intros [post Heq]. injection Heq as -> ->. eauto.
Qed.

Lemma contains_spec p h : contains p h = true <-> exists pre post, h = pre ++ p ++ post.
Proof.
  induction h as [|b h IH]; simpl; rewrite orb_true_iff, prefixb_spec.
  - split.
    + intros [[post Heq]|H]; [exists [], post; exact Heq | discriminate].
    + intros [pre [post Heq]]. left. destruct pre; [eauto|done].
  - rewrite IH. split.
    + intros [[post Heq]|[pre [post ->]]].
      * exists [], post. done.
      * exists (b :: pre), post. done.
    + intros [pre [post Heq]]. destruct pre as [|c pre].
      * left. eauto.
      * right. injection Heq as -> ->. eauto.
Qed.

(** [k in s.lower()] for a keyword already in lower case is [occurs_ci]. *)
Lemma contains_lower_occurs_ci kw s :
  map lower_char kw = kw ->
  contains kw (py_lower s) = true <-> occurs_ci kw s.
Proof.
  intros Hkw. unfold py_lower, occurs_ci. rewrite contains_spec. split.
  - intros [pre [post Heq]].
    apply map_eq_app in Heq as [pre' [rest [-> [Hpre Hrest]]]].
    apply map_eq_app in Hrest as [mid [post' [-> [Hmid Hpost]]]].
    exists pre', mid, post'. rewrite Hkw. done.
  - intros [pre [mid [post [-> Hmid]]]].
    exists (map lower_char pre), (map lower_char post).
    rewrite !map_app, Hmid, Hkw. done.
Qed.

(** ** Entry Classifier *)

Lemma or_iff3 (A A' B B' C C' : Prop) :
  (A <-> A') -> (B <-> B') -> (C <-> C') -> ((A \/ B) \/ C <-> A' \/ (B' \/ C')).
Proof. tauto. Qed.

Lemma copilot_lower : map lower_char (u "copilot") = u "copilot".
Proof. reflexivity. Qed.

Lemma occurs_ci_nil kw : kw <> [] -> ~ occurs_ci kw [].
Proof.
  intros Hkw [pre [mid [post [Heq Hmid]]]].
  destruct pre, mid; try discriminate. destruct kw; done.
Qed.

Lemma key_hit_contains val : key_hit val = contains (u "copilot") (py_lower val).
Proof.
  unfold key_hit. destruct (nonempty val && _) eqn:E; [|done].
  apply andb_true_iff in E as [_ E]. apply existsb_exists in E as [n [Hn Heq]].
  unfold pystr_eqb in Heq. apply bool_decide_eq_true in Heq. rewrite Heq.
  simpl in Hn. destruct Hn as [<-|[<-|[]]]; reflexivity.
Qed.

Lemma key_hit_spec v :
  key_hit (tag_get v) = true <->
  exists s, tag_field_text v = Some s /\ occurs_ci (u "copilot") s.
Proof.
  rewrite key_hit_contains. destruct v as [[s|]|]; simpl.
  - rewrite contains_lower_occurs_ci by apply copilot_lower. split.
    + intros H. eauto.
    + intros [s' [[= <-] H]]. exact H.
  - split; [done|]. intros [s [? _]]. discriminate.
  - split; [done|]. intros [s [? _]]. discriminate.
Qed.

(** Claim C5.  [is_copilot_tagged] returns [true] exactly when the keyword
    ["copilot"] occurs, up to case, as a substring of the [term] or [label]
    string of some tag, of the [category] string, or of the title; so an
    entry with none of these occurrences is classified not relevant. *)
Theorem is_copilot_tagged_iff (entry : EntryDict) :
  is_copilot_tagged entry = true <->
  (exists t s, In t (e_tags entry) /\
     (tag_field_text (term t) = Some s \/ tag_field_text (label t) = Some s) /\
     occurs_ci (u "copilot") s)
  \/ (exists c, e_category entry = Some c /\ occurs_ci (u "copilot") c)
  \/ (exists ti, e_title entry = Some ti /\ occurs_ci (u "copilot") ti).
Proof.
  unfold is_copilot_tagged. rewrite !orb_true_iff, existsb_exists.
  apply or_iff3.
  - split.
    + intros [t [Hin Hk]]. apply orb_true_iff in Hk as [Hk|Hk];
        apply key_hit_spec in Hk as [s [Hs Hocc]]; exists t, s; eauto.
    + intros [t [s [Hin [Hs Hocc]]]]. exists t. split; [done|].
      apply orb_true_iff. destruct Hs as [Hs|Hs]; [left|right]; apply key_hit_spec; eauto.
  - destruct (e_category entry) as [c|].
    + rewrite contains_lower_occurs_ci by apply copilot_lower. split.
      * intros H. eauto.
      * intros [c' [[= <-] H]]. exact H.
    + split; [done|]. intros [c [? _]]. discriminate.
  - destruct (e_title entry) as [[|a ti]|]; cbn [truthy].
    + split; [intros H; vm_compute in H; discriminate|]. intros [ti [[= <-] H]]. exfalso. by apply (occurs_ci_nil (u "copilot")).
    + rewrite contains_lower_occurs_ci by apply copilot_lower. split.
      * intros H. eauto.
      * intros [ti' [[= <-] H]]. exact H.
    + split; [intros H; vm_compute in H; discriminate|]. intros [ti [? _]]. discriminate.
Qed.

(** ** Seen-Set store *)

Lemma insert_sorted_elem x y l : y ∈ insert_sorted x l <-> y = x \/ y ∈ l.
Proof.
  induction l as [|z l IH]; simpl.
  - rewrite list_elem_of_singleton, elem_of_nil. tauto.
  - destruct (str_leb x z); rewrite !elem_of_cons; [tauto|]. rewrite IH. tauto.
Qed.

Lemma py_sorted_elem y l : y ∈ py_sorted l <-> y ∈ l.
Proof.
  induction l as [|x l IH]; simpl; [done|].
  rewrite insert_sorted_elem, elem_of_cons, IH. tauto.
Qed.

Lemma load_state_sorted l : load_state (FileArray (py_sorted l)) = list_to_set l.
Proof.
  apply set_eq. intros y. simpl. rewrite !elem_of_list_to_set. apply py_sorted_elem.
Qed.

Lemma load_save_state ids f : load_state (save_state ids f) = load_state f ∪ list_to_set ids.
Proof. unfold save_state. rewrite load_state_sorted. apply list_to_set_elements_L. Qed.

(** Claim C4.  Saving {a, b} into a missing state file and loading gives
    exactly {a, b}; saving {c} afterwards and loading gives {a, b, c}; in
    general the file [save_state] writes loads as the union of what the
    file held and the new identifiers, so a save never drops an identifier
    that was in the file. *)
Theorem seen_set_roundtrip :
  load_state (save_state [u "a"; u "b"] FileMissing) = {[u "a"]} ∪ {[u "b"]} /\
  load_state (save_state [u "c"] (save_state [u "a"; u "b"] FileMissing))
    = {[u "a"]} ∪ {[u "b"]} ∪ {[u "c"]} /\
  (forall (ids : list pystr) (f : StateFile),
     load_state (save_state ids f) = load_state f ∪ list_to_set ids /\
     load_state f ⊆ load_state (save_state ids f)).
Proof.
  split; [|split].
  - rewrite load_save_state. apply set_eq. simpl. set_solver.
  - rewrite !load_save_state. apply set_eq. simpl. set_solver.
  - intros ids f. rewrite load_save_state. split; [done|set_solver].
Qed.

(** ** Basic summary *)

Lemma slice_to_length s k : (0 <= k)%Z -> (length (slice_to s k) <= Z.to_nat k)%nat.
Proof.
  intros Hk. unfold slice_to. destruct (Z.leb_spec 0 k); [|lia].
  rewrite length_firstn. lia.
Qed.

(** Claim C6, amended to caps of at least 1.  For every entry and every
    cap [max_len >= 1], the result of [basic_summary] has at most
    [max_len] code points; when the stripped text is longer than the cap
    the result ends with the ellipsis; otherwise it is the stripped text
    itself. *)
Theorem basic_summary_cap strip_html (entry : EntryDict) (max_len : Z) :
  1 <= max_len ->
  let clean := py_strip (strip_html (summary_text entry)) in
  let r := basic_summary strip_html entry max_len in
  py_len r <= max_len /\
  (max_len < py_len clean -> exists p, r = p ++ [ELLIPSIS]) /\
  (py_len clean <= max_len -> r = clean).
Proof.
  intros Hcap clean r. unfold r, basic_summary. fold clean.
  destruct (Z.leb_spec (py_len clean) max_len) as [Hle|Hgt].
  - split; [done|]. split; [lia|done].
  - split; [|split; [eauto|lia]].
    unfold py_len. rewrite length_app. simpl.
    pose proof (rstrip_by_length is_space (slice_to clean (max_len - 1))).
    pose proof (slice_to_length clean (max_len - 1) ltac:(lia)).
    unfold py_rstrip. lia.
Qed.

(** Claim C6, as stated, fails at cap 0: the summary "ab" is cut to
    ["a" ++ "…"] (the slice [clean[:-1]] counts from the end), two code
    points for a cap of zero. *)
Lemma basic_summary_cap0_overflow :
  basic_summary strip_html_model (entry_with_summary "ab") 0 = u "a" ++ [ELLIPSIS] /\
  0 < py_len (basic_summary strip_html_model (entry_with_summary "ab") 0).
Proof. split; vm_compute; reflexivity. Qed.

(** ** Title cleanup *)

(** Claim C7.  On the input ["  'Copilot: New Feature!!'  "], which holds
    no markup (so the HTML stripper returns it unchanged), [_clean_title]
    returns exactly ["Copilot: New Feature"]. *)
Theorem clean_title_example strip_html :
  strip_html (u "  'Copilot: New Feature!!'  ") = u "  'Copilot: New Feature!!'  " ->
  clean_title strip_html (u "  'Copilot: New Feature!!'  ") 90 = u "Copilot: New Feature".
Proof. intros Hplain. unfold clean_title. rewrite Hplain. vm_compute. reflexivity. Qed.

Lemma clean_title_example_witness :
  strip_html_model (u "  'Copilot: New Feature!!'  ") = u "  'Copilot: New Feature!!'  " /\
  clean_title strip_html_model (u "  'Copilot: New Feature!!'  ") 90 = u "Copilot: New Feature".
Proof.
  split; [vm_compute; reflexivity|].
  apply clean_title_example. vm_compute. reflexivity.
Defined.

(** ** Summarizer fallback *)

Lemma clean_title_length strip_html raw max_len :
  0 <= max_len -> py_len (clean_title strip_html raw max_len) <= max_len.
Proof.
  intros Hm. unfold clean_title.
  match goal with |- context [if ?c then _ else _] => destruct c eqn:E end.
  - unfold py_len, py_rstrip.
    pose proof (rstrip_by_length is_space (slice_to
      (rstrip_by is_title_trail (rstrip_by (mem_chars QUOTE_CHARS)
        (lstrip_by (mem_chars QUOTE_CHARS) (collapse_ws (py_strip (strip_html raw))))))
      max_len)) as H1.
    pose proof (slice_to_length (rstrip_by is_title_trail (rstrip_by (mem_chars QUOTE_CHARS)
        (lstrip_by (mem_chars QUOTE_CHARS) (collapse_ws (py_strip (strip_html raw))))))
      max_len Hm) as H2.
    lia.
  - rewrite Z.gtb_ltb, Z.ltb_ge in E. exact E.
Qed.

Lemma basic_summary_nonempty strip_html entry max_len :
  1 <= max_len ->
  nonempty (py_strip (strip_html (summary_text entry))) = true ->
  nonempty (basic_summary strip_html entry max_len) = true.
Proof.
  intros _ Hne. unfold basic_summary.
  destruct (_ <=? _); [exact Hne|].
  destruct (py_rstrip _); reflexivity.
Qed.

(** Claim C3, amended.  With both generation-service credentials absent,
    [summarize_entry] and [derive_thread_name] use only the deterministic
    fallback: [summarize_entry] is [basic_summary entry 420] (at most 420
    code points, and non-empty whenever the markup-stripped summary has a
    non-whitespace character), and [derive_thread_name] is the same title as
    with no generation service at all, of at most 90 code points. *)
Theorem fallback_without_credentials strip_html llm_chat (env : Env) (entry : EntryDict) :
  truthy (GITHUB_MODELS_TOKEN env) = None ->
  truthy (OPENAI_API_KEY env) = None ->
  let summary := summarize_entry strip_html llm_chat env entry in
  let name := derive_thread_name strip_html llm_chat env entry in
  summary = basic_summary strip_html entry 420 /\
  py_len summary <= 420 /\
  (nonempty (py_strip (strip_html (summary_text entry))) = true -> nonempty summary = true) /\
  name = derive_thread_name strip_html no_llm env_none entry /\
  py_len name <= 90.
Proof.
  intros Hgh Hoa summary name.
  assert (Hs : summary = basic_summary strip_html entry 420).
  { unfold summary, summarize_entry, github_llm_bulleted_summary,
      openai_llm_bulleted_summary, llm_bulleted_summary.
    rewrite Hgh, Hoa. reflexivity. }
  assert (Hn : name = derive_thread_name strip_html no_llm env_none entry).
  { unfold name, derive_thread_name, github_llm_thread_title,
      openai_llm_thread_title, llm_thread_title.
    rewrite Hgh, Hoa. reflexivity. }
  split; [exact Hs|]. split; [|split; [|split; [exact Hn|]]].
  - rewrite Hs. apply (basic_summary_cap strip_html entry 420). lia.
  - intros Hne. rewrite Hs. apply basic_summary_nonempty; [lia|exact Hne].
  - rewrite Hn. unfold derive_thread_name. cbn -[clean_title basic_summary].
    destruct (nonempty _); apply clean_title_length; lia.
Qed.

Lemma fallback_without_credentials_witness :
  truthy (GITHUB_MODELS_TOKEN env_none) = None /\ truthy (OPENAI_API_KEY env_none) = None /\
  summarize_entry strip_html_model no_llm env_none (entry_with_summary "<p>Copilot</p>")
    = basic_summary strip_html_model (entry_with_summary "<p>Copilot</p>") 420.
Proof.
  split; [reflexivity|]. split; [reflexivity|].
  apply (fallback_without_credentials strip_html_model no_llm env_none
           (entry_with_summary "<p>Copilot</p>")); reflexivity.
Defined.

(** Claim C3, as stated, fails: with no credentials, the non-empty raw
    summary ["<p></p>"] has no text, and [summarize_entry] returns the empty
    string. *)
Lemma summarize_entry_markup_only :
  e_summary (entry_with_summary "<p></p>") = Some (u "<p></p>") /\
  summarize_entry strip_html_model no_llm env_none (entry_with_summary "<p></p>") = [].
Proof. split; vm_compute; reflexivity. Qed.

(** A title made only of trailing punctuation is cleaned away entirely. *)
Example derive_thread_name_punctuation_title :
  derive_thread_name strip_html_model no_llm env_none
    (mkEntry None None None (Some (u "!!!")) None (Some (u "<p>x</p>")) [] None) = [].
Proof. vm_compute. reflexivity. Qed.

(** ** Delivery pipeline *)

Section PipelineProofs.

Variable strip_html : pystr -> pystr.
Variable llm_chat : Service -> pystr -> pystr -> pystr -> option pystr.
Variable entry_datetime_utc : EntryDict -> Z.
Variable entry_isoformat : EntryDict -> pystr.

Lemma attempts_app l1 l2 : attempts (l1 ++ l2) = attempts l1 ++ attempts l2.
Proof.
  induction l1 as [|[] l1 IH]; simpl; rewrite ?IH; reflexivity.
Qed.

Lemma post_to_discord_frame env embeds t w :
  w_file (snd (post_to_discord env embeds t w)) = w_file w /\
  attempts (w_log (snd (post_to_discord env embeds t w))) = attempts (w_log w) /\
  dry_ok env (fst (fst (post_to_discord env embeds t w))).
Proof.
  unfold post_to_discord, dry_ok.
  destruct (truthy (DISCORD_WEBHOOK_URL env)); [|done].
  destruct embeds; [done|].
  destruct (DRY_RUN env); cbn; rewrite attempts_app; simpl; rewrite app_nil_r; done.
Qed.

Lemma emit_attempt idxs t ok w :
  w_file (snd (emit (EvAttempt idxs t ok) w)) = w_file w /\
  attempts (w_log (snd (emit (EvAttempt idxs t ok) w))) = attempts (w_log w) ++ [(idxs, t, ok)].
Proof. cbn. rewrite attempts_app. done. Qed.

Lemma post_each_spec env wt items all_ok posted w :
  let r := post_each strip_html llm_chat entry_isoformat env wt items all_ok posted w in
  w_file (snd r) = w_file w /\
  exists oks, length oks = length items /\ Forall (dry_ok env) oks /\
    attempts (w_log (snd r)) = attempts (w_log w) ++
      attempts_of (fun e => if wt then Some (derive_thread_name' strip_html llm_chat env e)
                            else None) items oks /\
    fst r = (all_ok && forallb id oks, posted ++ posted_of items oks).
Proof.
  revert all_ok posted w. induction items as [|[i entry] items IH]; intros all_ok posted w r.
  - split; [done|]. exists []. simpl. rewrite !app_nil_r, andb_true_r.
    split; [done|]. split; [constructor|]. done.
  - unfold r; clear r. simpl post_each. unfold bindM.
    destruct (post_to_discord env _ _ w) as [res w1] eqn:E.
    pose proof (post_to_discord_frame env
      [to_discord_embed strip_html llm_chat entry_isoformat env entry]
      (if wt then Some (derive_thread_name' strip_html llm_chat env entry) else None) w)
      as [Hf [Ha Hd]].
    rewrite E in Hf, Ha, Hd. simpl in Hf, Ha, Hd.
    destruct (emit _ w1) as [[] w2] eqn:E2.
    pose proof (emit_attempt [i] (if wt then Some (derive_thread_name' strip_html llm_chat env entry) else None) (fst res) w1) as [Hf2 Ha2].
    rewrite E2 in Hf2, Ha2. simpl in Hf2, Ha2.
    destruct (fst res) eqn:Eok.
    + destruct (IH all_ok (posted ++ [entry_fingerprint entry]) w2)
        as [Hf3 [oks [Hl [Hd3 [Ha3 Hr]]]]].
      split; [congruence|]. exists (true :: oks). simpl. split; [lia|].
      split; [constructor; [exact Hd|exact Hd3]|]. split.
      * rewrite Ha3, Ha2, Ha, <- app_assoc. done.
      * rewrite Hr, <- app_assoc. done.
    + destruct (IH false posted w2) as [Hf3 [oks [Hl [Hd3 [Ha3 Hr]]]]].
      split; [congruence|]. exists (false :: oks). simpl. split; [lia|].
      split; [constructor; [exact Hd|exact Hd3]|]. split.
      * rewrite Ha3, Ha2, Ha, <- app_assoc. done.
      * rewrite Hr, andb_false_r. done.
Qed.

Lemma post_batch_spec env to_send embeds t w :
  let r := post_batch env to_send embeds t w in
  exists ok, dry_ok env ok /\
    attempts (w_log (snd r)) = attempts (w_log w) ++ [(seq 0 (length to_send), t, ok)] /\
    fst r = (if ok then 0 else 2) /\
    w_file (snd r) = (if ok && negb (FORCE_POST env)
                      then save_state (map entry_fingerprint to_send) (w_file w) else w_file w).
Proof.
  unfold post_batch, bindM.
  destruct (post_to_discord env embeds t w) as [res w1] eqn:E.
  pose proof (post_to_discord_frame env embeds t w) as [Hf [Ha Hd]].
  rewrite E in Hf, Ha, Hd. simpl in Hf, Ha, Hd.
  exists (fst res). split; [exact Hd|]. destruct (fst res); [destruct (FORCE_POST env)|]; cbn;
    rewrite ?attempts_app, ?Ha, ?Hf; done.
Qed.

Lemma finish_per_item_spec env res w :
  let r := finish_per_item env res w in
  attempts (w_log (snd r)) = attempts (w_log w) /\
  fst r = (if fst res then 0 else 2) /\
  w_file (snd r) = (if nonempty_list (snd res) && negb (FORCE_POST env)
                    then save_state (snd res) (w_file w) else w_file w).
Proof.
  destruct res as [all_ok posted]. unfold finish_per_item, bindM. simpl.
  destruct (nonempty_list posted && negb (FORCE_POST env)); done.
Qed.

Lemma attempts_of_delivered titles (l : list EntryDict) (oks : list bool) (k i : nat) :
  length oks = length l ->
  (exists idxs t, In (idxs, t, true) (attempts_of titles (combine (seq k (length l)) l) oks)
                  /\ In i idxs)
  <-> ((k <= i < k + length l)%nat /\ nth (i - k) oks false = true).
Proof.
  revert oks k. induction l as [|e l IH]; intros oks k Hl.
  - simpl. split; [intros [idxs [t [[] _]]]|lia].
  - destruct oks as [|ok oks]; [discriminate|]. simpl in Hl. injection Hl as Hl.
    simpl. split.
    + intros [idxs [t [[Heq|Hin] Hi]]].
      * injection Heq as <- _ ->. destruct Hi as [<-|[]].
        rewrite Nat.sub_diag. simpl. split; [lia|done].
      * destruct (proj1 (IH oks (S k) Hl) (ex_intro _ idxs (ex_intro _ t (conj Hin Hi))))
          as [Hr Hn].
        replace (i - k)%nat with (S (i - S k)) by lia. split; [lia|exact Hn].
    + intros [Hr Hn]. destruct (Nat.eq_dec i k) as [->|Hne].
      * rewrite Nat.sub_diag in Hn. simpl in Hn. subst ok. exists [k], (titles e).
        split; [left; reflexivity|left; reflexivity].
      * assert (Hlt : (S k <= i < S k + length l)%nat) by lia.
        replace (i - k)%nat with (S (i - S k)) in Hn by lia. simpl in Hn.
        destruct (proj2 (IH oks (S k) Hl) (conj Hlt Hn)) as [idxs [t [Hin Hi]]].
        exists idxs, t. split; [right; exact Hin|exact Hi].
Qed.

Lemma posted_of_elem (l : list EntryDict) (oks : list bool) (k : nat) x :
  length oks = length l ->
  In x (posted_of (combine (seq k (length l)) l) oks) <->
  exists j, (j < length l)%nat /\ nth j oks false = true /\
            entry_fingerprint (nth j l entry0) = x.
Proof.
  revert oks k. induction l as [|e l IH]; intros oks k Hl.
  - simpl. split; [done|]. intros [j [Hj _]]. lia.
  - destruct oks as [|ok oks]; [discriminate|]. simpl in Hl. injection Hl as Hl.
    simpl. rewrite in_app_iff, (IH oks (S k) Hl). split.
    + intros [Hx|[j [Hj [Hn Hf]]]].
      * destruct ok; [|destruct Hx]. destruct Hx as [<-|[]].
        exists 0%nat. simpl. split; [lia|done].
      * exists (S j). simpl. split; [lia|done].
    + intros [[|j] [Hj [Hn Hf]]]; simpl in Hn, Hf.
      * left. subst ok. left. exact Hf.
      * right. exists j. split; [lia|done].
Qed.

Lemma posted_of_all_true (l : list EntryDict) (oks : list bool) (k : nat) :
  length oks = length l -> Forall (fun ok => ok = true) oks ->
  posted_of (combine (seq k (length l)) l) oks = map entry_fingerprint l.
Proof.
  revert oks k. induction l as [|e l IH]; intros oks k Hl Ht; [done|].
  destruct oks as [|ok oks]; [discriminate|]. simpl in Hl. injection Hl as Hl.
  inversion Ht as [|? ? Hok Ht']; subst. simpl. rewrite (IH oks (S k) Hl Ht'). done.
Qed.

Lemma forallb_false_nth (oks : list bool) :
  forallb id oks = false <-> exists j, (j < length oks)%nat /\ nth j oks false = false.
Proof.
  induction oks as [|ok oks IH]; simpl.
  - split; [done|]. intros [j [Hj _]]. lia.
  - destruct ok; simpl.
    + rewrite IH. split.
      * intros [j [Hj Hn]]. exists (S j). simpl. split; [lia|done].
      * intros [[|j] [Hj Hn]]; [discriminate|]. exists j. split; [lia|done].
    + split; [|done]. intros _. exists 0%nat. split; [lia|done].
Qed.

Lemma insert_by_time_length dt e l : length (insert_by_time dt e l) = S (length l).
Proof. induction l as [|y l IH]; simpl; [done|]. destruct (_ <? _); simpl; lia. Qed.

Lemma sort_by_time_length_acc dt l acc :
  length (fold_left (fun acc e => insert_by_time dt e acc) l acc) = (length l + length acc)%nat.
Proof.
  revert acc. induction l as [|e l IH]; intros acc; simpl; [done|].
  rewrite IH, insert_by_time_length. lia.
Qed.

Lemma sort_by_time_length dt l : length (sort_by_time dt l) = length l.
Proof. unfold sort_by_time. rewrite sort_by_time_length_acc. simpl. lia. Qed.

Lemma capped_nonempty dt env seen entries :
  filter_entries env seen entries <> [] -> capped dt env seen entries <> [].
Proof.
  intros Hne Hc. apply Hne. apply length_zero_iff_nil.
  apply (f_equal (@length _)) in Hc. unfold capped in Hc.
  rewrite length_firstn, sort_by_time_length in Hc.
  unfold MAX_ITEMS_PER_RUN in Hc. cbn [length] in Hc. lia.
Qed.

Lemma run_no_webhook env feed file http :
  truthy (DISCORD_WEBHOOK_URL env) = None ->
  run strip_html llm_chat entry_datetime_utc entry_isoformat env feed file http
  = (1, mkWorld file feed http 0 []).
Proof. intros H. unfold run, main. rewrite H. reflexivity. Qed.

Lemma run_no_survivors env feed file http :
  truthy (DISCORD_WEBHOOK_URL env) <> None ->
  filter_entries env (load_state file) feed = [] ->
  run strip_html llm_chat entry_datetime_utc entry_isoformat env feed file http
  = (0, mkWorld file feed http 0 [EvFetch FEED_URL]).
Proof.
  intros Hu Hf. unfold run, main.
  destruct (truthy (DISCORD_WEBHOOK_URL env)); [|congruence].
  destruct feed as [|e feed]; [reflexivity|].
  cbv beta iota delta [bindM fetch_feed load_state_m]. cbn [w_feed w_file w_log].
  rewrite Hf. reflexivity.
Qed.

Lemma main_outcome env feed file http :
  truthy (DISCORD_WEBHOOK_URL env) <> None ->
  filter_entries env (load_state file) feed <> [] ->
  let r := run strip_html llm_chat entry_datetime_utc entry_isoformat env feed file http in
  outcome env (derive_thread_name' strip_html llm_chat env)
    (capped entry_datetime_utc env (load_state file) feed) file
    (fst r) (w_log (snd r)) (w_file (snd r)).
Proof.
  intros Hu Hf r. unfold r; clear r.
  destruct (run _ _ _ _ env feed file http) as [code w'] eqn:E. simpl fst; simpl snd.
  unfold run, main in E.
  destruct (truthy (DISCORD_WEBHOOK_URL env)) as [webhook|]; [|congruence].
  destruct feed as [|e0 feed']; [done|].
  cbv beta iota delta [bindM fetch_feed load_state_m] in E. cbn [w_feed w_file w_log] in E.
  destruct (filter_entries env (load_state file) (e0 :: feed')) as [|f0 fs] eqn:Ef; [done|].
  unfold outcome, capped. rewrite Ef.
  set (to_send := take MAX_ITEMS_PER_RUN (sort_by_time entry_datetime_utc (f0 :: fs))) in *.
  set (embeds := map (to_discord_embed strip_html llm_chat entry_isoformat env) to_send) in *.
  set (derive := derive_thread_name' strip_html llm_chat env) in *.
  set (w1 := mkWorld file (e0 :: feed') http 0 [EvFetch FEED_URL]).
  assert (Hw1 : mkWorld file (e0 :: feed')
             (w_http (mkWorld file (e0 :: feed') http 0 []))
             (w_nreq (mkWorld file (e0 :: feed') http 0 []))
             ([] ++ [EvFetch FEED_URL]) = w1) by reflexivity.
  rewrite Hw1 in E. clear Hw1.
  assert (Ha1 : attempts (w_log w1) = []) by reflexivity.
  assert (Hf1 : w_file w1 = file) by reflexivity.
  unfold branch.
  destruct (is_Some_b _ || is_Some_b _);
    [|destruct (pystr_eqb _ (u "per-item"));
      [|destruct (pystr_eqb _ (u "single")); [|destruct (pystr_eqb _ (u "off"))]]].
  (* explicit thread, single and off: one batched post *)
  1, 3, 4:
    match type of E with post_batch ?env ?ts ?em ?t ?w = _ =>
      destruct (post_batch_spec env ts em t w) as [ok [Hd [Ha [Hc Hfile]]]] end;
    rewrite E in Ha, Hc, Hfile; simpl in Ha, Hc, Hfile;
    exists ok; split; [exact Hd|]; rewrite Ha, ?Ha1, Hc, Hfile, ?Hf1; done.
  - (* per-item *)
    destruct (post_each strip_html llm_chat entry_isoformat env true
                (combine (seq 0 (length to_send)) to_send) true [] w1) as [res w2] eqn:E2.
    destruct (post_each_spec env true
                (combine (seq 0 (length to_send)) to_send) true [] w1)
      as [Hf2 [oks [Hl [Hd2 [Ha2 Hr]]]]].
    rewrite E2 in Hf2, Ha2, Hr. simpl in Hf2, Ha2, Hr.
    destruct (finish_per_item_spec env res w2) as [Ha3 [Hc3 Hfile3]].
    rewrite E in Ha3, Hc3, Hfile3. simpl in Ha3, Hc3, Hfile3.
    rewrite length_combine, length_seq, Nat.min_id in Hl.
    exists oks. split; [exact Hl|]. split; [exact Hd2|].
    rewrite Ha3, Ha2, ?Ha1, Hc3, Hfile3, Hf2, ?Hf1, Hr. done.
  - (* auto *)
    destruct (post_to_discord env embeds (Some (derive (hd entry0 to_send))) w1)
      as [res w2] eqn:E2.
    pose proof (post_to_discord_frame env embeds (Some (derive (hd entry0 to_send))) w1)
      as [Hf2 [Ha2 Hd2]].
    rewrite E2 in Hf2, Ha2, Hd2. simpl in Hf2, Ha2, Hd2.
    cbn [emit] in E.
    set (w3 := mkWorld (w_file w2) (w_feed w2) (w_http w2) (w_nreq w2)
                 (w_log w2 ++ [EvAttempt (seq 0 (length to_send))
                                 (Some (derive (hd entry0 to_send))) res.1])) in E.
    assert (Ha3 : attempts (w_log w3) =
                  [(seq 0 (length to_send), Some (derive (hd entry0 to_send)), res.1)]).
    { unfold w3. simpl. rewrite attempts_app, Ha2, ?Ha1. reflexivity. }
    assert (Hf3 : w_file w3 = file) by (unfold w3; simpl; congruence).
    clearbody w3.
    destruct (res.1) eqn:Eok.
    + left. destruct (FORCE_POST env); cbn in E; injection E as <- <-;
        rewrite ?Ha3, ?Hf3; done.
    + right. split; [exact Hd2|].
      destruct (post_each strip_html llm_chat entry_isoformat env false
                  (combine (seq 0 (length to_send)) to_send) true [] w3) as [res' w4] eqn:E4.
      destruct (post_each_spec env false
                  (combine (seq 0 (length to_send)) to_send) true [] w3)
        as [Hf4 [oks [Hl [Hd4 [Ha4 Hr]]]]].
      rewrite E4 in Hf4, Ha4, Hr. simpl in Hf4, Ha4, Hr.
      destruct (finish_per_item_spec env res' w4) as [Ha5 [Hc5 Hfile5]].
      rewrite E in Ha5, Hc5, Hfile5. simpl in Ha5, Hc5, Hfile5.
      rewrite length_combine, length_seq, Nat.min_id in Hl.
      exists oks. split; [exact Hl|]. split; [exact Hd4|].
      rewrite Ha5, Ha4, Ha3, Hc5, Hfile5, Hf4, Hf3, Hr. done.
Qed.

Lemma delivered_batch log n t ok i :
  attempts log = [(seq 0 n, t, ok)] -> delivered log i <-> ok = true /\ (i < n)%nat.
Proof.
  intros Ha. unfold delivered. rewrite Ha. split.
  - intros [idxs [t' [[Heq|[]] Hi]]]. injection Heq as <- _ ->.
    apply in_seq in Hi. split; [done|lia].
  - intros [-> Hi]. exists (seq 0 n), t. split; [left; done|]. apply in_seq. lia.
Qed.

Lemma delivered_per_item log pre titles (l : list EntryDict) oks i :
  length oks = length l -> Forall (fun a => snd a = false) pre ->
  attempts log = pre ++ attempts_of titles (combine (seq 0 (length l)) l) oks ->
  delivered log i <-> (i < length l)%nat /\ nth i oks false = true.
Proof.
  intros Hl Hpre Ha. unfold delivered. rewrite Ha.
  pose proof (attempts_of_delivered titles l oks 0 i Hl) as Hd.
  rewrite Nat.sub_0_r in Hd. split.
  - intros [idxs [t [Hin Hi]]]. apply in_app_or in Hin as [Hin|Hin].
    + rewrite Forall_forall in Hpre. apply list_elem_of_In, Hpre in Hin. discriminate.
    + destruct (proj1 Hd (ex_intro _ idxs (ex_intro _ t (conj Hin Hi)))) as [Hr Hn].
      split; [lia|exact Hn].
  - intros [Hi Hn]. assert (Hr : (0 <= i < 0 + length l)%nat) by lia.
    destruct (proj2 Hd (conj Hr Hn)) as [idxs [t [Hin Hi']]].
    exists idxs, t. split; [apply in_or_app; right; exact Hin|exact Hi'].
Qed.

Lemma save_state_new_id ids f x :
  x ∈ load_state (save_state ids f) -> x ∉ load_state f -> In x ids.
Proof.
  rewrite load_save_state, elem_of_union, elem_of_list_to_set, list_elem_of_In.
  intros [H|H] Hn; [contradiction|exact H].
Qed.

Lemma in_map_fingerprint x (l : list EntryDict) :
  In x (map entry_fingerprint l) ->
  exists i, (i < length l)%nat /\ entry_fingerprint (nth i l entry0) = x.
Proof.
  intros Hx. apply in_map_iff in Hx as [e [<- He]].
  apply (In_nth l e entry0) in He as [i [Hi <-]]. eauto.
Qed.

(** Identifiers new in the written file come from delivered positions, and
    a file changes only if some position was delivered. *)
Lemma seen_step log (to_send : list EntryDict) file file' (b : bool) ids :
  file' = (if b then save_state ids file else file) ->
  (b = true -> forall x, In x ids ->
     exists i, delivered log i /\ entry_fingerprint (nth i to_send entry0) = x) ->
  (b = true -> ids <> []) ->
  (forall x, x ∈ load_state file' -> x ∉ load_state file ->
     exists i, delivered log i /\ entry_fingerprint (nth i to_send entry0) = x) /\
  ((forall a, In a (attempts log) -> snd a = false) -> file' = file).
Proof.
  intros Hf Hids Hne. destruct b; subst file'; [|split; [intros x Hx Hn; contradiction|done]].
  split.
  - intros x Hx Hn. apply (Hids eq_refl). exact (save_state_new_id ids file x Hx Hn).
  - intros Hall. destruct ids as [|x ids]; [destruct (Hne eq_refl); done|].
    destruct (Hids eq_refl x (or_introl eq_refl)) as [i [[idxs [t [Hin _]]] _]].
    apply Hall in Hin. discriminate.
Qed.

Lemma seen_batch log (to_send : list EntryDict) file file' t ok (force : bool) :
  to_send <> [] ->
  attempts log = [(seq 0 (length to_send), t, ok)] ->
  file' = (if ok && negb force then save_state (map entry_fingerprint to_send) file else file) ->
  (forall x, x ∈ load_state file' -> x ∉ load_state file ->
     exists i, delivered log i /\ entry_fingerprint (nth i to_send entry0) = x) /\
  ((forall a, In a (attempts log) -> snd a = false) -> file' = file).
Proof.
  intros Hne Ha Hf. apply (seen_step _ _ _ _ _ _ Hf).
  - intros Hb x Hx. apply andb_true_iff in Hb as [-> _].
    destruct (in_map_fingerprint x to_send Hx) as [i [Hi Hfp]].
    exists i. split; [apply (delivered_batch _ _ _ _ _ Ha); done|exact Hfp].
  - intros _. destruct to_send; done.
Qed.

Lemma seen_per_item log pre titles (to_send : list EntryDict) oks file file' (force : bool) :
  length oks = length to_send -> Forall (fun a => snd a = false) pre ->
  attempts log = pre ++ attempts_of titles (combine (seq 0 (length to_send)) to_send) oks ->
  file' = (let posted := posted_of (combine (seq 0 (length to_send)) to_send) oks in
           if nonempty_list posted && negb force then save_state posted file else file) ->
  (forall x, x ∈ load_state file' -> x ∉ load_state file ->
     exists i, delivered log i /\ entry_fingerprint (nth i to_send entry0) = x) /\
  ((forall a, In a (attempts log) -> snd a = false) -> file' = file).
Proof.
  intros Hl Hpre Ha Hf. apply (seen_step _ _ _ _ _ _ Hf).
  - intros _ x Hx. apply (posted_of_elem to_send oks 0 x Hl) in Hx as [j [Hj [Hn Hfp]]].
    exists j. split; [apply (delivered_per_item _ _ _ _ _ _ Hl Hpre Ha); done|exact Hfp].
  - intros Hb Hp. rewrite Hp in Hb. discriminate.
Qed.

Lemma outcome_seen env derive to_send file code log file' :
  to_send <> [] ->
  outcome env derive to_send file code log file' ->
  (forall x, x ∈ load_state file' -> x ∉ load_state file ->
     exists i, delivered log i /\ entry_fingerprint (nth i to_send entry0) = x) /\
  ((forall a, In a (attempts log) -> snd a = false) -> file' = file).
Proof.
  intros Hne. unfold outcome. destruct (branch env); cbv zeta.
  1, 3, 4: intros [ok [_ [Ha [_ Hf]]]]; exact (seen_batch _ _ _ _ _ _ _ Hne Ha Hf).
  - intros [oks [Hl [_ [Ha [_ Hf]]]]].
    exact (seen_per_item _ [] _ _ _ _ _ _ Hl (List.Forall_nil _) Ha Hf).
  - intros [[Ha [_ Hf]]|[_ [oks [Hl [_ [Ha [_ Hf]]]]]]].
    + apply (seen_batch _ _ _ _ _ true (FORCE_POST env) Hne Ha).
      rewrite Hf. destruct (FORCE_POST env); done.
    + refine (seen_per_item _ _ _ _ _ _ _ _ Hl _ Ha Hf).
      constructor; [done|constructor].
Qed.

Lemma code_batch log n t ok code :
  (0 < n)%nat -> attempts log = [(seq 0 n, t, ok)] -> code = (if ok then 0 else 2) ->
  (code = 0 \/ code = 2) /\ (code = 2 <-> exists i, (i < n)%nat /\ ~ delivered log i).
Proof.
  intros Hn Ha ->. destruct ok.
  - split; [left; done|]. split; [done|].
    intros [i [Hi Hd]]. exfalso. apply Hd. apply (delivered_batch _ _ _ _ _ Ha). done.
  - split; [right; done|]. split; [|done]. intros _. exists 0%nat. split; [done|].
    rewrite (delivered_batch _ _ _ _ _ Ha). intros [? _]. discriminate.
Qed.

Lemma code_per_item log pre titles (to_send : list EntryDict) oks code :
  length oks = length to_send -> Forall (fun a => snd a = false) pre ->
  attempts log = pre ++ attempts_of titles (combine (seq 0 (length to_send)) to_send) oks ->
  code = (if forallb id oks then 0 else 2) ->
  (code = 0 \/ code = 2) /\
  (code = 2 <-> exists i, (i < length to_send)%nat /\ ~ delivered log i).
Proof.
  intros Hl Hpre Ha ->.
  assert (Hd : forall i, delivered log i <-> (i < length to_send)%nat /\ nth i oks false = true)
    by (intros i; exact (delivered_per_item _ _ _ _ _ i Hl Hpre Ha)).
  destruct (forallb id oks) eqn:E.
  - split; [left; done|]. split; [done|]. intros [i [Hi Hn]].
    destruct (nth i oks false) eqn:En.
    + exfalso. apply Hn, Hd. done.
    + assert (forallb id oks = false) as Hf
        by (apply forallb_false_nth; exists i; split; [lia|done]).
      congruence.
  - split; [right; done|]. split; [|done]. intros _.
    apply forallb_false_nth in E as [j [Hj Hn]]. exists j. split; [lia|].
    rewrite Hd. intros [_ Ht]. congruence.
Qed.

Lemma outcome_code env derive to_send file code log file' :
  to_send <> [] ->
  outcome env derive to_send file code log file' ->
  (code = 0 \/ code = 2) /\
  (code = 2 <-> exists i, (i < length to_send)%nat /\ ~ delivered log i).
Proof.
  intros Hne. assert (Hn : (0 < length to_send)%nat) by (destruct to_send; [done|simpl; lia]).
  unfold outcome. destruct (branch env); cbv zeta.
  1, 3, 4: intros [ok [_ [Ha [Hc _]]]]; exact (code_batch _ _ _ _ _ Hn Ha Hc).
  - intros [oks [Hl [_ [Ha [Hc _]]]]].
    exact (code_per_item _ [] _ _ _ _ Hl (List.Forall_nil _) Ha Hc).
  - intros [[Ha [Hc _]]|[_ [oks [Hl [_ [Ha [Hc _]]]]]]].
    + exact (code_batch _ _ _ true _ Hn Ha Hc).
    + refine (code_per_item _ _ _ _ _ _ Hl _ Ha Hc). constructor; [done|constructor].
Qed.

Lemma outcome_force env derive to_send file code log file' :
  FORCE_POST env = true ->
  outcome env derive to_send file code log file' -> file' = file.
Proof.
  intros Hf. unfold outcome. rewrite Hf. destruct (branch env); cbv zeta.
  1, 3, 4: intros [ok [_ [_ [_ ->]]]]; rewrite andb_false_r; done.
  - intros [oks [_ [_ [_ [_ ->]]]]]. rewrite andb_false_r. done.
  - intros [[_ [_ ->]]|[_ [oks [_ [_ [_ [_ ->]]]]]]]; [done|]. rewrite andb_false_r. done.
Qed.

Lemma outcome_dry env derive to_send file code log file' :
  DRY_RUN env = true -> truthy (DISCORD_WEBHOOK_URL env) <> None ->
  FORCE_POST env = false -> to_send <> [] ->
  outcome env derive to_send file code log file' ->
  code = 0 /\ file' = save_state (map entry_fingerprint to_send) file.
Proof.
  intros Hdry Hu Hf Hne. unfold outcome. rewrite Hf. destruct (branch env); cbv zeta.
  1, 3, 4: intros [ok [Hd [_ [-> ->]]]]; rewrite (Hd Hdry Hu); done.
  - intros [oks [Hl [Hd [_ [-> ->]]]]].
    assert (Ht : Forall (fun ok => ok = true) oks)
      by (eapply Forall_impl; [exact Hd|]; intros ok Hok; exact (Hok Hdry Hu)).
    rewrite (posted_of_all_true to_send oks 0 Hl Ht).
    assert (forallb id oks = true) as ->.
    { apply forallb_forall. intros ok Hok. rewrite Forall_forall in Ht. rewrite (Ht ok (proj2 (list_elem_of_In _ _) Hok)). done. }
    destruct to_send; done.
  - intros [[_ [-> ->]]|[Hd _]]; [done|]. discriminate (Hd Hdry Hu).
Qed.

Lemma pystr_eqb_refl s : pystr_eqb s s = true.
Proof. unfold pystr_eqb. apply bool_decide_eq_true_2. reflexivity. Qed.

(** Claim C8.  The exit code is 1 when the webhook URL is missing, and then
    nothing is fetched or posted (empty event log, no webhook request); it
    is 0 when the feed is empty or no entry survives filtering; otherwise it
    is 0 or 2, and it is 2 exactly when some entry of the capped batch was
    not carried by a successful [post_to_discord] call (in [auto] mode a
    failed batched post whose entries all succeed on the per-entry retry
    yields 0). *)
Theorem exit_codes env feed file http :
  let r := run strip_html llm_chat entry_datetime_utc entry_isoformat env feed file http in
  let to_send := capped entry_datetime_utc env (load_state file) feed in
  (truthy (DISCORD_WEBHOOK_URL env) = None ->
     fst r = 1 /\ w_log (snd r) = [] /\ w_nreq (snd r) = 0%nat) /\
  (truthy (DISCORD_WEBHOOK_URL env) <> None -> feed = [] -> fst r = 0) /\
  (truthy (DISCORD_WEBHOOK_URL env) <> None ->
     filter_entries env (load_state file) feed = [] -> fst r = 0) /\
  (truthy (DISCORD_WEBHOOK_URL env) <> None ->
     filter_entries env (load_state file) feed <> [] ->
     (fst r = 0 \/ fst r = 2) /\
     (fst r = 2 <-> exists i, (i < length to_send)%nat /\ ~ delivered (w_log (snd r)) i)).
Proof.
  intros r to_send. split; [|split; [|split]].
  - intros Hu. unfold r. rewrite run_no_webhook by exact Hu. done.
  - intros Hu ->. unfold r. rewrite run_no_survivors by done. done.
  - intros Hu Hf. unfold r. rewrite run_no_survivors by done. done.
  - intros Hu Hf.
    exact (outcome_code env _ to_send file _ _ _ (capped_nonempty _ _ _ _ Hf)
             (main_outcome env feed file http Hu Hf)).
Qed.

(** Claim C2, amended.  Every identifier that a run adds to the state file
    is the fingerprint of an entry of the capped batch at a position [i]
    carried by some [post_to_discord] call that returned success; and a run
    whose every [post_to_discord] call failed leaves the state file as it
    was.  (A failed batched post does not keep its identifiers out: in
    [auto] mode the per-entry retries that succeed mark their entries.) *)
Theorem seen_only_after_success env feed file http :
  let r := run strip_html llm_chat entry_datetime_utc entry_isoformat env feed file http in
  let to_send := capped entry_datetime_utc env (load_state file) feed in
  (forall x, x ∈ load_state (w_file (snd r)) -> x ∉ load_state file ->
     exists i, delivered (w_log (snd r)) i /\
               entry_fingerprint (nth i to_send entry0) = x) /\
  ((forall a, In a (attempts (w_log (snd r))) -> snd a = false) -> w_file (snd r) = file).
Proof.
  intros r to_send.
  destruct (truthy (DISCORD_WEBHOOK_URL env)) eqn:Hu.
  - destruct (filter_entries env (load_state file) feed) eqn:Hf.
    + unfold r. rewrite run_no_survivors by (rewrite ?Hu, ?Hf; done). simpl.
      split; [intros x Hx Hn; contradiction|done].
    + assert (Hne : filter_entries env (load_state file) feed <> []) by (rewrite Hf; done).
      assert (Hu' : truthy (DISCORD_WEBHOOK_URL env) <> None) by (rewrite Hu; done).
      exact (outcome_seen env _ to_send file _ _ _ (capped_nonempty _ _ _ _ Hne)
               (main_outcome env feed file http Hu' Hne)).
  - unfold r. rewrite run_no_webhook by exact Hu. simpl.
    split; [intros x Hx Hn; contradiction|done].
Qed.

(** Claim C10.  With [FORCE_POST] set, a run leaves the state file as it
    found it, whatever the branch and whatever the webhook answers; and the
    filter keeps exactly the relevant entries with a non-empty fingerprint,
    whatever the Seen Set. *)
Theorem force_post_keeps_state env feed file http :
  FORCE_POST env = true ->
  w_file (snd (run strip_html llm_chat entry_datetime_utc entry_isoformat env feed file http))
    = file /\
  (forall seen entries, filter_entries env seen entries =
     List.filter (fun e => is_copilot_tagged e && nonempty (entry_fingerprint e)) entries).
Proof.
  intros Hforce. split.
  - destruct (truthy (DISCORD_WEBHOOK_URL env)) eqn:Hu.
    + destruct (filter_entries env (load_state file) feed) eqn:Hf.
      * rewrite run_no_survivors by (rewrite ?Hu, ?Hf; done). done.
      * assert (Hne : filter_entries env (load_state file) feed <> []) by (rewrite Hf; done).
        assert (Hu' : truthy (DISCORD_WEBHOOK_URL env) <> None) by (rewrite Hu; done).
        exact (outcome_force env _ _ file _ _ _ Hforce (main_outcome env feed file http Hu' Hne)).
    + rewrite run_no_webhook by exact Hu. done.
  - intros seen entries. induction entries as [|e entries IH]; [done|]. simpl.
    rewrite Hforce, IH. simpl.
    destruct (is_copilot_tagged e), (nonempty (entry_fingerprint e)); done.
Qed.

(** Claim C9, amended.  Under dry run with a webhook URL, [post_to_discord]
    returns [(True, None)] for every embed list and makes no webhook request
    (the request counter is unchanged and the events it adds hold no HTTP
    post); so a run that reaches the posting stage, without [FORCE_POST],
    exits 0 and writes the identifiers of the whole capped batch to the
    state file.  (With no webhook URL, [post_to_discord] returns
    [(False, None)] also under dry run.) *)
Theorem dry_run_semantics env feed file http :
  let r := run strip_html llm_chat entry_datetime_utc entry_isoformat env feed file http in
  let to_send := capped entry_datetime_utc env (load_state file) feed in
  (DRY_RUN env = true -> truthy (DISCORD_WEBHOOK_URL env) <> None ->
     forall embeds t w,
       fst (post_to_discord env embeds t w) = (true, None) /\
       w_nreq (snd (post_to_discord env embeds t w)) = w_nreq w /\
       exists new, w_log (snd (post_to_discord env embeds t w)) = w_log w ++ new /\
                   Forall (fun ev => forall p o, ev <> EvHttpPost p o) new) /\
  (DRY_RUN env = true -> truthy (DISCORD_WEBHOOK_URL env) <> None ->
     FORCE_POST env = false -> filter_entries env (load_state file) feed <> [] ->
     fst r = 0 /\ w_file (snd r) = save_state (map entry_fingerprint to_send) file).
Proof.
  intros r to_send. split.
  - intros Hdry Hu embeds t w. unfold post_to_discord.
    destruct (truthy (DISCORD_WEBHOOK_URL env)); [|congruence].
    destruct embeds as [|em embeds].
    + cbn. split; [done|]. split; [done|]. exists []. rewrite app_nil_r. split; [done|constructor].
    + rewrite Hdry. cbn. split; [done|]. split; [done|].
      eexists. split; [reflexivity|]. constructor; [intros ? ?; discriminate|constructor].
  - intros Hdry Hu Hforce Hf.
    exact (outcome_dry env _ to_send file _ _ _ Hdry Hu Hforce (capped_nonempty _ _ _ _ Hf)
             (main_outcome env feed file http Hu Hf)).
Qed.

(** Claim C1, amended.  With no [DISCORD_FORUM_MODE] set the mode is
    ["per-item"], so the run is per-entry (unless an explicit thread target
    is set): one [post_to_discord] call per entry of the capped batch, each
    with its own derived thread title.  The [auto] behaviour is the branch
    of any mode other than per-item, single and off with no explicit
    thread: one batched post with the thread title derived from the first
    entry; on success exit 0 and (unless [FORCE_POST]) all identifiers
    saved; on failure one post per entry with no thread title, marking the
    identifiers of the entries whose post succeeded. *)
Theorem default_mode_and_auto env feed file http :
  let r := run strip_html llm_chat entry_datetime_utc entry_isoformat env feed file http in
  let to_send := capped entry_datetime_utc env (load_state file) feed in
  let n := length to_send in
  let items := combine (seq 0 n) to_send in
  let derive := derive_thread_name' strip_html llm_chat env in
  (env_DISCORD_FORUM_MODE env = None ->
     DISCORD_FORUM_MODE env = u "per-item" /\
     (branch env = BExplicit \/ branch env = BPerItem)) /\
  (env_DISCORD_FORUM_MODE env = None -> branch env <> BExplicit ->
     truthy (DISCORD_WEBHOOK_URL env) <> None ->
     filter_entries env (load_state file) feed <> [] ->
     exists oks, length oks = n /\
       attempts (w_log (snd r)) = attempts_of (fun e => Some (derive e)) items oks /\
       fst r = (if forallb id oks then 0 else 2)) /\
  (branch env = BAuto -> truthy (DISCORD_WEBHOOK_URL env) <> None ->
     filter_entries env (load_state file) feed <> [] ->
     let t := derive (hd entry0 to_send) in
     (attempts (w_log (snd r)) = [(seq 0 n, Some t, true)] /\ fst r = 0 /\
      w_file (snd r) = (if FORCE_POST env then file
                        else save_state (map entry_fingerprint to_send) file)) \/
     (exists oks, length oks = n /\
       attempts (w_log (snd r)) = (seq 0 n, Some t, false) :: attempts_of (fun _ => None) items oks /\
       fst r = (if forallb id oks then 0 else 2) /\
       w_file (snd r) = (let posted := posted_of items oks in
                         if nonempty_list posted && negb (FORCE_POST env)
                         then save_state posted file else file))).
Proof.
  intros r to_send n items derive.
  assert (Hdef : env_DISCORD_FORUM_MODE env = None ->
                 DISCORD_FORUM_MODE env = u "per-item" /\
                 (branch env = BExplicit \/ branch env = BPerItem)).
  { intros Hm. assert (Hmode : DISCORD_FORUM_MODE env = u "per-item")
      by (unfold DISCORD_FORUM_MODE; rewrite Hm; reflexivity).
    split; [exact Hmode|]. unfold branch. rewrite Hmode, pystr_eqb_refl.
    destruct (_ || _); [left|right]; done. }
  split; [exact Hdef|]. split.
  - intros Hm Hx Hu Hf. pose proof (main_outcome env feed file http Hu Hf) as Ho.
    destruct (Hdef Hm) as [_ [Hb|Hb]]; [contradiction|].
    unfold outcome in Ho. rewrite Hb in Ho. cbv zeta in Ho.
    destruct Ho as [oks [Hl [_ [Ha [Hc _]]]]].
    exists oks. split; [exact Hl|]. split; [exact Ha|exact Hc].
  - intros Hb Hu Hf t. pose proof (main_outcome env feed file http Hu Hf) as Ho.
    unfold outcome in Ho. rewrite Hb in Ho. cbv zeta in Ho.
    destruct Ho as [Ho|[_ [oks [Hl [_ [Ha [Hc Hfile]]]]]]]; [left; exact Ho|right].
    exists oks. split; [exact Hl|]. split; [exact Ha|]. split; [exact Hc|exact Hfile].
Qed.

End PipelineProofs.

(** ** Witnesses and counterexamples of the pipeline claims *)

(** Witness of C6: the cap hypothesis holds at the default cap 420. *)
Lemma basic_summary_cap_witness :
  1 <= 420 /\
  py_len (basic_summary strip_html_model (entry_with_summary "<p>x</p>") 420) <= 420.
Proof.
  split; [lia|].
  exact (proj1 (basic_summary_cap strip_html_model (entry_with_summary "<p>x</p>") 420
                  ltac:(lia))).
Defined.

(** Witness of C8: each case reached by a concrete run (no URL; empty
    feed; no relevant entry; a rejected batch in [off] mode, exit 2). *)
Lemma exit_codes_witness :
  fst (cx_run env_none cx_feed1 FileMissing http_ok) = 1 /\
  fst (cx_run (cx_env None None None) [] FileMissing http_ok) = 0 /\
  fst (cx_run (cx_env None None None) [cx_entry "z" "Release notes"] FileMissing http_ok) = 0 /\
  fst (cx_run (cx_env (Some "off"%string) None None) cx_feed1 FileMissing http_reject) = 2.
Proof.
  split; [|split; [|split]].
  - destruct (exit_codes strip_html_model no_llm cx_datetime cx_isoformat
                env_none cx_feed1 FileMissing http_ok) as [H _].
    exact (proj1 (H eq_refl)).
  - destruct (exit_codes strip_html_model no_llm cx_datetime cx_isoformat
                (cx_env None None None) [] FileMissing http_ok) as [_ [H _]].
    apply H; [vm_compute; discriminate|reflexivity].
  - destruct (exit_codes strip_html_model no_llm cx_datetime cx_isoformat
                (cx_env None None None) [cx_entry "z" "Release notes"] FileMissing http_ok)
      as [_ [_ [H _]]].
    apply H; vm_compute; [discriminate|reflexivity].
  - destruct (exit_codes strip_html_model no_llm cx_datetime cx_isoformat
                (cx_env (Some "off"%string) None None) cx_feed1 FileMissing http_reject)
      as [_ [_ [_ H]]].
    destruct (H ltac:(vm_compute; discriminate) ltac:(vm_compute; discriminate)) as [_ Hc].
    apply Hc. exists 0%nat. split; [vm_compute; lia|].
    intros [idxs [t [Hin _]]]. vm_compute in Hin. destruct Hin as [Heq|[]]. discriminate.
Defined.

(** Witness of C2: in [auto] mode the identifier written after a rejected
    batch comes from a delivered position; in [off] mode a rejected batch
    leaves the (missing) state file missing. *)
Lemma seen_only_after_success_witness :
  (exists i, delivered (w_log (snd (cx_run (cx_env (Some "auto"%string) None None) cx_feed1
                                             FileMissing http_fail_first))) i /\
             entry_fingerprint (nth i (capped cx_datetime (cx_env (Some "auto"%string) None None)
                                        (load_state FileMissing) cx_feed1) entry0) = u "a") /\
  w_file (snd (cx_run (cx_env (Some "off"%string) None None) cx_feed1 FileMissing http_reject))
    = FileMissing.
Proof.
  split.
  - destruct (seen_only_after_success strip_html_model no_llm cx_datetime cx_isoformat
                (cx_env (Some "auto"%string) None None) cx_feed1 FileMissing http_fail_first) as [H _].
    assert (E : w_file (snd (run strip_html_model no_llm cx_datetime cx_isoformat
                               (cx_env (Some "auto"%string) None None) cx_feed1 FileMissing
                               http_fail_first)) = FileArray [u "a"])
      by (vm_compute; reflexivity).
    apply H; [rewrite E; simpl; set_solver|simpl; set_solver].
  - destruct (seen_only_after_success strip_html_model no_llm cx_datetime cx_isoformat
                (cx_env (Some "off"%string) None None) cx_feed1 FileMissing http_reject) as [_ H].
    apply H. intros a Ha. vm_compute in Ha. destruct Ha as [<-|[]]. reflexivity.
Defined.

(** Witness of C10: with [FORCE_POST=1] an entry already in the state file
    is posted again and the file is left as it was. *)
Lemma force_post_keeps_state_witness :
  FORCE_POST (cx_env None (Some "1"%string) None) = true /\
  w_file (snd (cx_run (cx_env None (Some "1"%string) None) cx_feed1 (FileArray [u "a"]) http_ok))
    = FileArray [u "a"].
Proof.
  split; [vm_compute; reflexivity|].
  exact (proj1 (force_post_keeps_state strip_html_model no_llm cx_datetime cx_isoformat
                  (cx_env None (Some "1"%string) None) cx_feed1 (FileArray [u "a"]) http_ok
                  ltac:(vm_compute; reflexivity))).
Defined.

(** Witness of C9: under [DRY_RUN=1] with a webhook URL the call succeeds,
    and a run against a webhook that would reject every request exits 0
    and saves the identifier. *)
Lemma dry_run_semantics_witness :
  fst (post_to_discord (cx_env None None (Some "1"%string)) [cx_embed] None cx_world) = (true, None) /\
  fst (cx_run (cx_env None None (Some "1"%string)) cx_feed1 FileMissing http_reject) = 0 /\
  w_file (snd (cx_run (cx_env None None (Some "1"%string)) cx_feed1 FileMissing http_reject))
    = save_state [u "a"] FileMissing.
Proof.
  destruct (dry_run_semantics strip_html_model no_llm cx_datetime cx_isoformat
              (cx_env None None (Some "1"%string)) cx_feed1 FileMissing http_reject) as [H1 H2].
  split.
  - exact (proj1 (H1 ltac:(vm_compute; reflexivity) ltac:(vm_compute; discriminate)
                    [cx_embed] None cx_world)).
  - destruct (H2 ltac:(vm_compute; reflexivity) ltac:(vm_compute; discriminate)
                 ltac:(vm_compute; reflexivity) ltac:(vm_compute; discriminate)) as [Hc Hf].
    split; [exact Hc|]. etransitivity; [exact Hf|]. vm_compute. reflexivity.
Defined.

(** Witness of C1: with no mode set the mode is per-item and a two-entry
    run makes two per-entry attempts; in [auto] mode with a rejected batch
    the run takes the per-entry fallback. *)
Lemma default_mode_and_auto_witness :
  DISCORD_FORUM_MODE (cx_env None None None) = u "per-item" /\
  (exists oks, length oks = 2%nat /\
     fst (cx_run (cx_env None None None) cx_feed2 FileMissing http_ok)
       = (if forallb id oks then 0 else 2)) /\
  (fst (cx_run (cx_env (Some "auto"%string) None None) cx_feed1 FileMissing http_fail_first) = 0 \/
   exists oks, fst (cx_run (cx_env (Some "auto"%string) None None) cx_feed1 FileMissing http_fail_first)
                 = (if forallb id oks then 0 else 2)).
Proof.
  split; [|split].
  - destruct (default_mode_and_auto strip_html_model no_llm cx_datetime cx_isoformat
                (cx_env None None None) cx_feed2 FileMissing http_ok) as [H _].
    exact (proj1 (H eq_refl)).
  - destruct (default_mode_and_auto strip_html_model no_llm cx_datetime cx_isoformat
                (cx_env None None None) cx_feed2 FileMissing http_ok) as [_ [H _]].
    destruct (H eq_refl ltac:(vm_compute; discriminate) ltac:(vm_compute; discriminate)
                ltac:(vm_compute; discriminate)) as [oks [Hl [_ Hc]]].
    exists oks. split; [rewrite Hl; vm_compute; reflexivity|exact Hc].
  - destruct (default_mode_and_auto strip_html_model no_llm cx_datetime cx_isoformat
                (cx_env (Some "auto"%string) None None) cx_feed1 FileMissing http_fail_first)
      as [_ [_ H]].
    destruct (H ltac:(vm_compute; reflexivity) ltac:(vm_compute; discriminate)
                ltac:(vm_compute; discriminate)) as [[_ [Hc _]]|[oks [_ [_ [Hc _]]]]].
    + left. exact Hc.
    + right. exists oks. exact Hc.
Defined.

(** Counterexample to C1 as stated: with no mode configured the run does
    not make one batched post; it posts each of the two entries on its own,
    each with its own thread title. *)
Lemma default_mode_is_per_item :
  DISCORD_FORUM_MODE (cx_env None None None) = u "per-item" /\
  attempts (w_log (snd (cx_run (cx_env None None None) cx_feed2 FileMissing http_ok)))
  = [([0%nat], Some (u "Copilot one"), true); ([1%nat], Some (u "Copilot two"), true)].
Proof. split; vm_compute; reflexivity. Qed.

(** Counterexample to C2 as stated: in [auto] mode the batched post holding
    entry "a" fails (HTTP 400), the per-entry retry succeeds, and "a" is
    written to the state file although a post of its batch failed. *)
Lemma auto_retry_marks_failed_batch :
  attempts (w_log (snd (cx_run (cx_env (Some "auto"%string) None None) cx_feed1 FileMissing
                               http_fail_first)))
  = [([0%nat], Some (u "Copilot one"), false); ([0%nat], None, true)] /\
  w_file (snd (cx_run (cx_env (Some "auto"%string) None None) cx_feed1 FileMissing http_fail_first))
  = FileArray [u "a"].
Proof. split; vm_compute; reflexivity. Qed.

(** Counterexample to C9 as stated: under [DRY_RUN=1] with no webhook URL,
    [post_to_discord] returns [(False, None)], not success. *)
Lemma dry_run_without_url_fails :
  DRY_RUN env_dry_nourl = true /\
  fst (post_to_discord env_dry_nourl [cx_embed] None cx_world) = (false, None).
Proof. split; vm_compute; reflexivity. Qed.

(* ================================================================== *)
(** * Further properties *)

(** ** Seen-Set store: the saved file *)

Lemma str_leb_total a b : str_leb a b = false -> str_leb b a = true.
Proof.
  revert b. induction a as [|x a IH]; intros [|y b]; simpl; try done.
  intros H. apply orb_false_iff in H as [H1 H2].
  apply N.ltb_ge in H1. apply andb_false_iff in H2 as [H2|H2].
  - apply N.eqb_neq in H2. apply orb_true_iff. left. apply N.ltb_lt. lia.
  - destruct (N.eq_dec x y) as [->|Hne].
    + rewrite N.ltb_irrefl, N.eqb_refl. simpl. apply IH. exact H2.
    + apply orb_true_iff. left. apply N.ltb_lt. lia.
Qed.

Lemma insert_sorted_sorted x l :
  Sorted (fun a b => str_leb a b = true) l ->
  Sorted (fun a b => str_leb a b = true) (insert_sorted x l).
Proof.
  induction 1 as [|y l Hs IH Hhd]; simpl.
  - repeat constructor.
  - destruct (str_leb x y) eqn:E.
    + constructor; [constructor; assumption|constructor; exact E].
    + constructor; [exact IH|].
      destruct l as [|z l]; simpl.
      * constructor. apply str_leb_total. exact E.
      * inversion Hhd; subst. destruct (str_leb x z); constructor;
          [apply str_leb_total; exact E|assumption].
Qed.

Lemma py_sorted_sorted l : Sorted (fun a b => str_leb a b = true) (py_sorted l).
Proof.
  induction l as [|x l IH]; simpl; [constructor|]. apply insert_sorted_sorted, IH.
Qed.

Lemma insert_sorted_perm x l : Permutation (insert_sorted x l) (x :: l).
Proof.
  induction l as [|y l IH]; simpl; [done|].
  destruct (str_leb x y); [done|]. rewrite IH. apply perm_swap.
Qed.

Lemma py_sorted_perm l : Permutation (py_sorted l) l.
Proof.
  induction l as [|x l IH]; simpl; [done|]. rewrite insert_sorted_perm, IH. done.
Qed.

(** [save_state] writes a sorted JSON array without duplicates whose
    members are those of the loaded set and the given identifiers. *)
Theorem save_state_sorted_nodup ids f :
  exists xs, save_state ids f = FileArray xs /\
    Sorted (fun a b => str_leb a b = true) xs /\ NoDup xs /\
    (forall x, x ∈ xs <-> x ∈ load_state f \/ x ∈ ids).
Proof.
  eexists. split; [reflexivity|]. split; [apply py_sorted_sorted|]. split.
  - rewrite py_sorted_perm. apply NoDup_elements.
  - intros x. rewrite py_sorted_perm, elem_of_elements, elem_of_union, elem_of_list_to_set. done.
Qed.

Lemma save_state_compose a b f :
  save_state a (save_state b f) = save_state (b ++ a) f.
Proof.
  unfold save_state at 1. rewrite load_save_state. unfold save_state.
  f_equal. f_equal. f_equal. rewrite list_to_set_app_L. set_solver.
Qed.

(** ** The filtering and capping of [main] *)

Lemma filter_entries_filter env seen feed :
  filter_entries env seen feed = List.filter (keep_entry env seen) feed.
Proof.
  induction feed as [|e feed IH]; [done|]. simpl. rewrite IH.
  destruct (keep_entry env seen e) eqn:K; unfold keep_entry in K;
    destruct (is_copilot_tagged e), (nonempty (entry_fingerprint e)), (FORCE_POST env),
      (bool_decide (entry_fingerprint e ∈ seen)); simpl in *; congruence.
Qed.

Lemma truthy_some_nonempty o v : truthy o = Some v -> nonempty v = true.
Proof. destruct o as [[|c v']|]; simpl; intros H; [done|injection H as <-; done|done]. Qed.

Lemma fingerprint_nonempty e :
  nonempty (entry_fingerprint e) = true <->
  Exists (fun o => truthy o <> None)
    [e_id e; e_guid e; e_entry_id e; e_link e; e_title e].
Proof.
  unfold entry_fingerprint. rewrite !Exists_cons, Exists_nil.
  destruct (truthy (e_id e)) as [v|] eqn:E1;
    [split; [intros _; left; congruence|intros _; exact (truthy_some_nonempty _ _ E1)]|].
  destruct (truthy (e_guid e)) as [v|] eqn:E2;
    [split; [intros _; right; left; congruence|intros _; exact (truthy_some_nonempty _ _ E2)]|].
  destruct (truthy (e_entry_id e)) as [v|] eqn:E3;
    [split; [intros _; do 2 right; left; congruence|intros _; exact (truthy_some_nonempty _ _ E3)]|].
  destruct (truthy (e_link e)) as [v|] eqn:E4;
    [split; [intros _; do 3 right; left; congruence|intros _; exact (truthy_some_nonempty _ _ E4)]|].
  destruct (truthy (e_title e)) as [v|] eqn:E5;
    [split; [intros _; do 4 right; left; congruence|intros _; exact (truthy_some_nonempty _ _ E5)]|].
  split; [done|]. intros [H|[H|[H|[H|[H|[]]]]]]; congruence.
Qed.

(** An entry survives the filtering loop of [main] exactly when it is in
    the feed, is classified as Copilot-related, has a truthy identifier
    field, and either force-repost is set or its fingerprint is not in the
    Seen Set. *)
Theorem filter_entries_members env seen feed e :
  In e (filter_entries env seen feed) <->
  In e feed /\ is_copilot_tagged e = true /\
  Exists (fun o => truthy o <> None) [e_id e; e_guid e; e_entry_id e; e_link e; e_title e] /\
  (FORCE_POST env = true \/ entry_fingerprint e ∉ seen).
Proof.
  rewrite filter_entries_filter, filter_In. unfold keep_entry.
  rewrite !andb_true_iff, orb_true_iff, negb_true_iff, bool_decide_eq_false,
    fingerprint_nonempty. tauto.
Qed.

(** Sorting. *)
Lemma insert_by_time_perm dt e l : Permutation (insert_by_time dt e l) (e :: l).
Proof.
  induction l as [|y l IH]; simpl; [done|].
  destruct (_ <? _); [done|]. rewrite IH. apply perm_swap.
Qed.

Lemma sort_by_time_perm dt l : Permutation (sort_by_time dt l) l.
Proof.
  unfold sort_by_time. cut (forall acc, Permutation (fold_left (fun acc e => insert_by_time dt e acc) l acc) (l ++ acc)).
  { intros H. rewrite H, app_nil_r. done. }
  induction l as [|e l IH]; intros acc; simpl; [done|].
  rewrite IH, insert_by_time_perm. symmetry. apply Permutation_middle.
Qed.

Lemma insert_by_time_sorted dt e l :
  Sorted (fun a b => dt a <= dt b) l -> Sorted (fun a b => dt a <= dt b) (insert_by_time dt e l).
Proof.
  induction 1 as [|y l Hs IH Hhd]; simpl.
  - repeat constructor.
  - destruct (dt e <? dt y) eqn:E.
    + apply Z.ltb_lt in E. constructor; [constructor; assumption|constructor; lia].
    + apply Z.ltb_ge in E. constructor; [exact IH|].
      destruct l as [|z l]; simpl.
      * constructor. lia.
      * inversion Hhd; subst. destruct (dt e <? dt z); constructor; lia.
Qed.

Lemma sort_by_time_sorted dt l : Sorted (fun a b => dt a <= dt b) (sort_by_time dt l).
Proof.
  unfold sort_by_time.
  cut (forall acc, Sorted (fun a b => dt a <= dt b) acc ->
       Sorted (fun a b => dt a <= dt b) (fold_left (fun acc e => insert_by_time dt e acc) l acc)).
  { intros H. apply H. constructor. }
  induction l as [|e l IH]; intros acc Hacc; simpl; [done|].
  apply IH, insert_by_time_sorted, Hacc.
Qed.

Lemma sorted_app_le dt (l1 l2 : list EntryDict) :
  Sorted (fun a b => dt a <= dt b) (l1 ++ l2) ->
  Forall (fun a => Forall (fun b => dt a <= dt b) l2) l1.
Proof.
  intros Hs. apply Sorted_StronglySorted in Hs; [|intros x y z; lia].
  induction l1 as [|a l1 IH]; simpl in *; [constructor|].
  inversion Hs as [|? ? Hs' Hall]; subst. constructor; [|exact (IH Hs')].
  rewrite Forall_app in Hall. apply Hall.
Qed.

Lemma sorted_app_l {A} (R : A -> A -> Prop) (l1 l2 : list A) :
  Sorted R (l1 ++ l2) -> Sorted R l1.
Proof.
  induction l1 as [|a l1 IH]; simpl; intros Hs; [constructor|].
  inversion Hs as [|? ? Hs' Hhd]; subst. constructor; [exact (IH Hs')|].
  destruct l1; simpl in *; [constructor|]. inversion Hhd; subst. constructor. assumption.
Qed.

(** The batch [main] posts holds at most [MAX_ITEMS_PER_RUN] surviving
    entries, oldest first, and no survivor left out is older than one in
    the batch. *)
Theorem capped_oldest dt env seen feed :
  let to_send := capped dt env seen feed in
  (length to_send <= MAX_ITEMS_PER_RUN)%nat /\
  Forall (fun e => In e (filter_entries env seen feed)) to_send /\
  Sorted (fun a b => dt a <= dt b) to_send /\
  exists rest, Permutation (to_send ++ rest) (filter_entries env seen feed) /\
    Forall (fun a => Forall (fun b => dt a <= dt b) rest) to_send.
Proof.
  intros to_send. unfold to_send, capped.
  set (s := sort_by_time dt (filter_entries env seen feed)).
  assert (Hp : Permutation s (filter_entries env seen feed)) by apply sort_by_time_perm.
  assert (Hs : Sorted (fun a b => dt a <= dt b) s) by apply sort_by_time_sorted.
  pose proof (take_drop MAX_ITEMS_PER_RUN s) as Htd.
  split; [rewrite length_take; lia|]. split.
  { apply Forall_forall. intros e He. apply list_elem_of_In. rewrite <- Hp.
    apply (subseteq_take MAX_ITEMS_PER_RUN s). exact He. }
  split.
  { rewrite <- Htd in Hs. exact (sorted_app_l _ _ _ Hs). }
  exists (drop MAX_ITEMS_PER_RUN s). rewrite Htd. split; [exact Hp|].
  apply sorted_app_le. rewrite Htd. exact Hs.
Qed.

Lemma nth_fp_in_save (l : list EntryDict) i ids f :
  In (entry_fingerprint (nth i l entry0)) ids ->
  entry_fingerprint (nth i l entry0) ∈ load_state (save_state ids f).
Proof.
  intros H. rewrite load_save_state, elem_of_union, elem_of_list_to_set, list_elem_of_In. by right.
Qed.

Lemma nth_fp_in_map (l : list EntryDict) i :
  (i < length l)%nat -> In (entry_fingerprint (nth i l entry0)) (map entry_fingerprint l).
Proof. intros Hi. apply in_map, nth_In, Hi. Qed.

Lemma outcome_delivered_saved env derive to_send file code log file' i :
  FORCE_POST env = false ->
  outcome env derive to_send file code log file' ->
  delivered log i ->
  (i < length to_send)%nat /\ entry_fingerprint (nth i to_send entry0) ∈ load_state file'.
Proof.
  intros Hf Ho Hd. unfold outcome in Ho. rewrite Hf in Ho.
  assert (Hbatch : forall t ok, attempts log = [(seq 0 (length to_send), t, ok)] ->
            file' = (if ok && negb false then save_state (map entry_fingerprint to_send) file else file) ->
            (i < length to_send)%nat /\ entry_fingerprint (nth i to_send entry0) ∈ load_state file').
  { intros t ok Ha Hfile. apply (delivered_batch _ _ _ _ _ Ha) in Hd as [-> Hi].
    split; [exact Hi|]. rewrite Hfile. apply nth_fp_in_save, nth_fp_in_map, Hi. }
  assert (Hper : forall pre titles oks, length oks = length to_send ->
            Forall (fun a => snd a = false) pre ->
            attempts log = pre ++ attempts_of titles (combine (seq 0 (length to_send)) to_send) oks ->
            file' = (let posted := posted_of (combine (seq 0 (length to_send)) to_send) oks in
                     if nonempty_list posted && negb false then save_state posted file else file) ->
            (i < length to_send)%nat /\ entry_fingerprint (nth i to_send entry0) ∈ load_state file').
  { intros pre titles oks Hl Hpre Ha Hfile.
    apply (delivered_per_item _ _ _ _ _ _ Hl Hpre Ha) in Hd as [Hi Hn]. split; [exact Hi|].
    assert (Hin : In (entry_fingerprint (nth i to_send entry0))
                     (posted_of (combine (seq 0 (length to_send)) to_send) oks))
      by (apply (posted_of_elem to_send oks 0 _ Hl); exists i; done).
    rewrite Hfile. cbv zeta.
    assert (Hne : nonempty_list (posted_of (combine (seq 0 (length to_send)) to_send) oks) = true)
      by (destruct (posted_of _ oks); [destruct Hin|done]).
    rewrite Hne. cbn [andb negb]. apply nth_fp_in_save. exact Hin. }
  destruct (branch env); cbv zeta in Ho.
  1, 3, 4: destruct Ho as [ok [_ [Ha [_ Hfile]]]]; exact (Hbatch _ _ Ha Hfile).
  - destruct Ho as [oks [Hl [_ [Ha [_ Hfile]]]]]. exact (Hper [] _ _ Hl (List.Forall_nil _) Ha Hfile).
  - destruct Ho as [[Ha [_ Hfile]]|[_ [oks [Hl [_ [Ha [_ Hfile]]]]]]].
    + exact (Hbatch _ true Ha Hfile).
    + refine (Hper _ _ _ Hl _ Ha Hfile). constructor; [done|constructor].
Qed.


(** Without force-repost, every entry of the batch that a successful post
    carried has its fingerprint in the state file after the run, so no
    later run without force-repost keeps an entry with that fingerprint. *)
Theorem delivered_not_reposted sh llm dt iso env feed file http :
  FORCE_POST env = false ->
  let r := run sh llm dt iso env feed file http in
  let to_send := capped dt env (load_state file) feed in
  forall i, delivered (w_log (snd r)) i ->
    (i < length to_send)%nat /\
    entry_fingerprint (nth i to_send entry0) ∈ load_state (w_file (snd r)) /\
    (forall env' feed' e, FORCE_POST env' = false ->
       entry_fingerprint e = entry_fingerprint (nth i to_send entry0) ->
       ~ In e (filter_entries env' (load_state (w_file (snd r))) feed')).
Proof.
  intros Hf r to_send i Hd.
  assert (Hsaved : (i < length to_send)%nat /\
                   entry_fingerprint (nth i to_send entry0) ∈ load_state (w_file (snd r))).
  { destruct (truthy (DISCORD_WEBHOOK_URL env)) eqn:Hu.
    - destruct (filter_entries env (load_state file) feed) eqn:Hfl.
      + unfold r in Hd. rewrite run_no_survivors in Hd by (rewrite ?Hu, ?Hfl; done).
        destruct Hd as [idxs [t [[] _]]].
      + assert (Hne : filter_entries env (load_state file) feed <> []) by (rewrite Hfl; done).
        assert (Hu' : truthy (DISCORD_WEBHOOK_URL env) <> None) by (rewrite Hu; done).
        exact (outcome_delivered_saved env _ to_send file _ _ _ i Hf
                 (main_outcome sh llm dt iso env feed file http Hu' Hne) Hd).
    - unfold r in Hd. rewrite run_no_webhook in Hd by exact Hu.
      destruct Hd as [idxs [t [[] _]]]. }
  destruct Hsaved as [Hi Hin]. split; [exact Hi|]. split; [exact Hin|].
  intros env' feed' e Hf' He Hine. rewrite filter_entries_filter, filter_In in Hine.
  destruct Hine as [_ Hk]. unfold keep_entry in Hk. rewrite Hf', He in Hk.
  rewrite bool_decide_eq_true_2 in Hk by exact Hin. rewrite !andb_false_r in Hk. discriminate.
Qed.

(** ** Webhook requests *)

Section RequestCount.
Variable strip_html : pystr -> pystr.
Variable llm_chat : Service -> pystr -> pystr -> pystr -> option pystr.
Variable entry_datetime_utc : EntryDict -> Z.
Variable entry_isoformat : EntryDict -> pystr.

Lemma post_emit_inv env embeds t idxs t' ok w :
  truthy (DISCORD_WEBHOOK_URL env) <> None -> embeds <> [] -> req_inv env w ->
  req_inv env (snd (emit (EvAttempt idxs t' ok) (snd (post_to_discord env embeds t w)))).
Proof.
  unfold req_inv, post_to_discord. intros Hu Hne Hi.
  destruct (truthy (DISCORD_WEBHOOK_URL env)); [|congruence].
  destruct embeds; [congruence|].
  destruct (DRY_RUN env); cbn; rewrite ?attempts_app, ?length_app; simpl.
  all: lia.
Qed.

Lemma post_each_inv env wt items all_ok posted w :
  truthy (DISCORD_WEBHOOK_URL env) <> None -> req_inv env w ->
  req_inv env (snd (post_each strip_html llm_chat entry_isoformat env wt items all_ok posted w)).
Proof.
  intros Hu. revert all_ok posted w.
  induction items as [|[i entry] items IH]; intros all_ok posted w Hi; [exact Hi|].
  simpl post_each. unfold bindM.
  pose proof (post_emit_inv env [to_discord_embed strip_html llm_chat entry_isoformat env entry]
    (if wt then Some (derive_thread_name' strip_html llm_chat env entry) else None) [i]
    (if wt then Some (derive_thread_name' strip_html llm_chat env entry) else None)
    (fst (fst (post_to_discord env [to_discord_embed strip_html llm_chat entry_isoformat env entry]
         (if wt then Some (derive_thread_name' strip_html llm_chat env entry) else None) w)))
    w Hu ltac:(done) Hi) as H2.
  destruct (post_to_discord env _ _ w) as [res w1] eqn:E. cbn [emit fst snd] in *.
  destruct (fst res); apply IH; exact H2.
Qed.

Lemma post_batch_inv env to_send embeds t w :
  truthy (DISCORD_WEBHOOK_URL env) <> None -> embeds <> [] -> req_inv env w ->
  req_inv env (snd (post_batch env to_send embeds t w)).
Proof.
  intros Hu Hne Hi. unfold post_batch, bindM.
  pose proof (post_emit_inv env embeds t (seq 0 (length to_send)) t
    (fst (fst (post_to_discord env embeds t w))) w Hu Hne Hi) as H2.
  destruct (post_to_discord env embeds t w) as [res w1] eqn:E. cbn [emit fst snd] in *.
  destruct (fst res); [destruct (FORCE_POST env)|]; exact H2.
Qed.

Lemma finish_inv env res w : req_inv env w -> req_inv env (snd (finish_per_item env res w)).
Proof.
  destruct res as [all_ok posted]. unfold finish_per_item, bindM. simpl.
  destruct (nonempty_list posted && negb (FORCE_POST env)); done.
Qed.

Lemma run_req_inv env feed file http :
  req_inv env (snd (run strip_html llm_chat entry_datetime_utc entry_isoformat env feed file http)).
Proof.
  unfold run, main.
  destruct (truthy (DISCORD_WEBHOOK_URL env)) as [webhook|] eqn:Hu;
    [|unfold req_inv; simpl; destruct (DRY_RUN env); done].
  assert (Hu' : truthy (DISCORD_WEBHOOK_URL env) <> None) by (rewrite Hu; done).
  destruct feed as [|e0 feed']; [unfold req_inv; simpl; destruct (DRY_RUN env); done|].
  cbv beta iota delta [bindM fetch_feed load_state_m]. cbn [w_feed w_file w_log].
  destruct (filter_entries env (load_state file) (e0 :: feed')) as [|f0 fs] eqn:Ef;
    [unfold req_inv; simpl; destruct (DRY_RUN env); done|].
  set (to_send := take MAX_ITEMS_PER_RUN (sort_by_time entry_datetime_utc (f0 :: fs))).
  assert (Hne : to_send <> []).
  { pose proof (capped_nonempty entry_datetime_utc env (load_state file) (e0 :: feed')) as H.
    unfold capped in H. rewrite Ef in H. apply H. done. }
  set (embeds := map (to_discord_embed strip_html llm_chat entry_isoformat env) to_send).
  assert (Hemb : embeds <> []) by (unfold embeds; destruct to_send; done).
  set (w1 := mkWorld file (e0 :: feed') http 0 ([] ++ [EvFetch FEED_URL])).
  assert (Hi1 : req_inv env w1) by (unfold req_inv; simpl; destruct (DRY_RUN env); done).
  change (mkWorld file (e0 :: feed')
            (w_http (mkWorld file (e0 :: feed') http 0 []))
            (w_nreq (mkWorld file (e0 :: feed') http 0 []))
            ([] ++ [EvFetch FEED_URL])) with w1.
  destruct (is_Some_b _ || is_Some_b _);
    [|destruct (pystr_eqb _ (u "per-item"));
      [|destruct (pystr_eqb _ (u "single")); [|destruct (pystr_eqb _ (u "off"))]]].
  1, 3, 4: apply post_batch_inv; assumption.
  - destruct (post_each strip_html llm_chat entry_isoformat env true _ true [] w1) as [res w2] eqn:E2.
    pose proof (post_each_inv env true (combine (seq 0 (length to_send)) to_send) true [] w1 Hu' Hi1)
      as H2.
    rewrite E2 in H2. apply finish_inv, H2.
  - set (t := Some (derive_thread_name' strip_html llm_chat env (hd entry0 to_send))).
    pose proof (post_emit_inv env embeds t (seq 0 (length to_send)) t
      (fst (fst (post_to_discord env embeds t w1))) w1 Hu' Hemb Hi1) as H3.
    destruct (post_to_discord env embeds t w1) as [res w2] eqn:E2. cbn [emit fst snd] in *.
    destruct (fst res).
    + destruct (FORCE_POST env); exact H3.
    + match goal with |- req_inv env (snd (let (_, _) := post_each _ _ _ _ _ _ _ _ ?w in _)) =>
        pose proof (post_each_inv env false (combine (seq 0 (length to_send)) to_send) true [] w Hu' H3)
          as H4;
        destruct (post_each strip_html llm_chat entry_isoformat env false _ true [] w) as [res' w4]
      end.
      apply finish_inv, H4.
Qed.

Lemma length_attempts_of titles items oks :
  (length (attempts_of titles items oks) <= length oks)%nat.
Proof.
  revert items. induction oks as [|ok oks IH]; intros [|[i e] items]; simpl; try lia.
  specialize (IH items). lia.
Qed.

Lemma outcome_attempts_length env derive to_send file code log file' :
  outcome env derive to_send file code log file' ->
  (length (attempts log) <= S (length to_send))%nat.
Proof.
  unfold outcome. destruct (branch env); cbv zeta.
  1, 3, 4: intros [ok [_ [-> _]]]; simpl; lia.
  - intros [oks [Hl [_ [-> _]]]]. simpl. pose proof (length_attempts_of (fun e => Some (derive e))
      (combine (seq 0 (length to_send)) to_send) oks). lia.
  - intros [[-> _]|[_ [oks [Hl [_ [-> _]]]]]]; simpl; [lia|].
    pose proof (length_attempts_of (fun _ => None) (combine (seq 0 (length to_send)) to_send) oks).
    lia.
Qed.

(** A run makes no webhook request under dry run, and at most
    [MAX_ITEMS_PER_RUN + 1] webhook requests in any case. *)
Theorem run_webhook_requests env feed file http :
  let w := snd (run strip_html llm_chat entry_datetime_utc entry_isoformat env feed file http) in
  (DRY_RUN env = true -> w_nreq w = 0%nat) /\
  (w_nreq w <= S MAX_ITEMS_PER_RUN)%nat.
Proof.
  intros w. pose proof (run_req_inv env feed file http) as Hi. fold w in Hi.
  unfold req_inv in Hi. split; [intros Hd; rewrite Hi, Hd; done|].
  destruct (truthy (DISCORD_WEBHOOK_URL env)) eqn:Hu.
  2: { unfold w. rewrite run_no_webhook by exact Hu. simpl. lia. }
  assert (Hu' : truthy (DISCORD_WEBHOOK_URL env) <> None) by congruence.
  destruct (filter_entries env (load_state file) feed) eqn:Hf.
  { unfold w. rewrite run_no_survivors by assumption. simpl. lia. }
  assert (Hf' : filter_entries env (load_state file) feed <> []) by congruence.
  pose proof (main_outcome strip_html llm_chat entry_datetime_utc entry_isoformat
    env feed file http Hu' Hf') as Ho.
  cbv zeta in Ho. fold w in Ho.
  pose proof (outcome_attempts_length _ _ _ _ _ _ _ Ho) as Hl.
  assert (Hc : (length (capped entry_datetime_utc env (load_state file) feed)
                <= MAX_ITEMS_PER_RUN)%nat) by (unfold capped; rewrite length_firstn; lia).
  rewrite Hi. destruct (DRY_RUN env); lia.
Qed.

End RequestCount.



(** ** Post-processing of generated text *)

Lemma line_break_space c : is_line_break c = true -> is_space c = true.
Proof.
  unfold is_line_break, is_space. rewrite !orb_true_iff, !andb_true_iff, !N.leb_le, !N.eqb_eq.
  lia.
Qed.

Lemma lstrip_by_suffix p s : exists pre, s = pre ++ lstrip_by p s /\ Forall (fun c => p c = true) pre.
Proof.
  induction s as [|c s IH]; simpl; [exists []; done|].
  destruct (p c) eqn:E; [|exists []; done].
  destruct IH as [pre [Hs Hf]]. exists (c :: pre). split; [simpl; congruence|constructor; done].
Qed.

Lemma rstrip_by_prefix p s : exists post, s = rstrip_by p s ++ post /\ Forall (fun c => p c = true) post.
Proof.
  unfold rstrip_by. destruct (lstrip_by_suffix p (rev s)) as [pre [Hs Hf]].
  exists (rev pre). split.
  - rewrite <- rev_app_distr, <- Hs, rev_involutive. done.
  - apply Forall_rev. exact Hf.
Qed.

Lemma lstrip_by_all p s : forallb p s = true -> lstrip_by p s = [].
Proof. induction s as [|c s IH]; simpl; [done|]. intros H. apply andb_true_iff in H as [-> H]. auto. Qed.

Lemma py_strip_all_space s : forallb is_space s = true -> py_strip s = [].
Proof. intros H. unfold py_strip. rewrite lstrip_by_all by exact H. done. Qed.

(** A non-whitespace character survives [strip]. *)
Lemma lstrip_by_keeps p s c : In c s -> p c = false -> In c (lstrip_by p s).
Proof.
  induction s as [|d s IH]; simpl; [done|]. intros [->|H] Hp.
  - rewrite Hp. left. done.
  - destruct (p d); [auto|right; exact H].
Qed.

Lemma rstrip_by_keeps p s c : In c s -> p c = false -> In c (rstrip_by p s).
Proof.
  intros H Hp. unfold rstrip_by. apply in_rev. rewrite rev_involutive.
  apply lstrip_by_keeps; [apply in_rev; rewrite rev_involutive; exact H|exact Hp].
Qed.

Lemma py_strip_keeps s c : In c s -> is_space c = false -> In c (py_strip s).
Proof. intros H Hp. apply rstrip_by_keeps; [apply lstrip_by_keeps|]; assumption. Qed.

Lemma splitlines_aux_keeps cur s c :
  (In c cur \/ In c s) -> is_line_break c = false ->
  exists piece, In piece (splitlines_aux cur s) /\ In c piece.
Proof.
  revert cur. induction s as [|d s IH]; intros cur Hin Hb; simpl.
  - destruct Hin as [Hin|[]]. destruct cur as [|x cur]; [destruct Hin|].
    exists (rev (x :: cur)). split; [left; done|apply in_rev; rewrite rev_involutive; exact Hin].
  - destruct (is_line_break d) eqn:Ed.
    + destruct Hin as [Hin|[->|Hin]].
      * exists (rev cur). split; [left; done|apply in_rev; rewrite rev_involutive; exact Hin].
      * congruence.
      * destruct (IH [] (or_intror Hin) Hb) as [piece [Hp Hc]]. exists piece. split; [right|]; done.
    + apply IH; [|exact Hb]. destruct Hin as [Hin|[->|Hin]]; [left; right; done|left; left; done|right; done].
Qed.


Lemma forallb_false_ex {A} (p : A -> bool) l : forallb p l = false -> exists c, In c l /\ p c = false.
Proof.
  induction l as [|a l IH]; simpl; [done|]. intros H.
  destruct (p a) eqn:E; simpl in H; [destruct (IH H) as [c [? ?]]; exists c; auto|exists a; auto].
Qed.

(** The post-processing of a summary reply rejects it exactly when the
    reply is whitespace only. *)
Theorem bullets_of_reply_none msg : bullets_of_reply msg = None <-> forallb is_space msg = true.
Proof.
  split.
  - intros H. destruct (forallb is_space msg) eqn:E; [done|exfalso].
    destruct (forallb_false_ex _ _ E) as [c [Hc Hs]].
    assert (Hb : is_line_break c = false).
    { destruct (is_line_break c) eqn:Eb; [|done]. apply line_break_space in Eb. congruence. }
    pose proof (py_strip_keeps _ _ Hc Hs) as Hc1.
    destruct (splitlines_aux_keeps [] (py_strip msg) c (or_intror Hc1) Hb) as [piece [Hp Hcp]].
    pose proof (py_strip_keeps _ _ Hcp Hs) as Hc2.
    unfold bullets_of_reply in H.
    destruct (py_strip msg) as [|x r] eqn:Em; [destruct Hc1|]. simpl in H.
    destruct (filter nonempty (map py_strip (splitlines (x :: r)))) eqn:Ef; [|discriminate].
    assert (Hin : In (py_strip piece) (filter nonempty (map py_strip (splitlines (x :: r))))).
    { apply list_elem_of_In, list_elem_of_filter. split.
      - destruct (py_strip piece); [destruct Hc2|done].
      - apply list_elem_of_In, in_map. exact Hp. }
    rewrite Ef in Hin. destruct Hin.
  - intros H. unfold bullets_of_reply. rewrite py_strip_all_space by exact H. done.
Qed.

Lemma lstrip_by_head p s : forall c t, lstrip_by p s = c :: t -> p c = false.
Proof.
  induction s as [|d s IH]; simpl; [done|]. destruct (p d) eqn:E; [exact IH|].
  intros c t [= -> _]. exact E.
Qed.

Lemma lstrip_by_id p s : (forall c t, s = c :: t -> p c = false) -> lstrip_by p s = s.
Proof. destruct s as [|c t]; simpl; [done|]. intros H. rewrite (H c t eq_refl). done. Qed.

Lemma lstrip_by_idem p s : lstrip_by p (lstrip_by p s) = lstrip_by p s.
Proof. apply lstrip_by_id. intros c t H. exact (lstrip_by_head p s c t H). Qed.

Lemma rstrip_by_idem p s : rstrip_by p (rstrip_by p s) = rstrip_by p s.
Proof. unfold rstrip_by. rewrite rev_involutive, lstrip_by_idem. done. Qed.

Lemma rstrip_by_keeps_head p s c t :
  s = c :: t -> p c = false -> exists t', rstrip_by p s = c :: t'.
Proof.
  intros Hs Hp. destruct (rstrip_by_prefix p s) as [post [Hs' Hf]].
  destruct (rstrip_by p s) as [|d t'] eqn:E.
  - simpl in Hs'. rewrite <- Hs', Hs in Hf. inversion Hf. congruence.
  - rewrite Hs in Hs'. simpl in Hs'. injection Hs' as ->. exists t'. done.
Qed.

Lemma py_strip_idem s : py_strip (py_strip s) = py_strip s.
Proof.
  unfold py_strip. destruct (lstrip_by is_space s) as [|c t] eqn:E.
  - done.
  - pose proof (lstrip_by_head _ _ _ _ E) as Hc.
    destruct (rstrip_by_keeps_head is_space (c :: t) c t eq_refl Hc) as [t' Ht'].
    rewrite Ht'. rewrite (lstrip_by_id _ (c :: t')) by (intros ? ? [= <- _]; exact Hc).
    rewrite <- Ht'. apply rstrip_by_idem.
Qed.

Lemma py_strip_sub s c : In c (py_strip s) -> In c s.
Proof.
  intros H. unfold py_strip in H.
  destruct (rstrip_by_prefix is_space (lstrip_by is_space s)) as [post [Hs _]].
  destruct (lstrip_by_suffix is_space s) as [pre [Hs2 _]].
  rewrite Hs2. apply in_or_app. right. rewrite Hs. apply in_or_app. left. exact H.
Qed.

Lemma splitlines_aux_no_break cur s :
  no_break cur -> Forall no_break (splitlines_aux cur s).
Proof.
  revert cur. induction s as [|d s IH]; intros cur Hc; simpl.
  - destruct (nonempty cur); repeat constructor. apply Forall_rev. exact Hc.
  - destruct (is_line_break d) eqn:E.
    + constructor; [apply Forall_rev; exact Hc|apply IH; constructor].
    + apply IH. constructor; assumption.
Qed.

Lemma splitlines_aux_app cur l rest :
  no_break l -> splitlines_aux cur (l ++ rest) = splitlines_aux (rev l ++ cur) rest.
Proof.
  revert cur. induction l as [|c l IH]; intros cur Hl; simpl; [done|].
  inversion Hl as [|? ? Hc Hl']; subst. rewrite Hc, IH by exact Hl'.
  simpl. rewrite <- app_assoc. done.
Qed.

(** [str.splitlines] inverts ["\n".join] on non-empty lines without line
    boundaries. *)
Lemma splitlines_join ls :
  Forall (fun l => l <> [] /\ no_break l) ls -> splitlines (join [NEWLINE] ls) = ls.
Proof.
  unfold splitlines. induction ls as [|l ls IH]; intros H; [done|].
  inversion H as [|? ? [Hne Hl] H']; subst.
  destruct ls as [|l' ls'].
  - simpl. rewrite <- (app_nil_r l) at 1. rewrite splitlines_aux_app by exact Hl.
    simpl. rewrite app_nil_r. destruct (rev l) eqn:E.
    + apply (f_equal (@rev N)) in E. rewrite rev_involutive in E. simpl in E. congruence.
    + cbn [nonempty]. rewrite <- E, rev_involutive. done.
  - change (join [NEWLINE] (l :: l' :: ls')) with (l ++ [NEWLINE] ++ join [NEWLINE] (l' :: ls')).
    rewrite splitlines_aux_app by exact Hl. simpl. rewrite app_nil_r, rev_involutive.
    f_equal. apply IH. exact H'.
Qed.

Lemma bullets_lines msg r :
  bullets_of_reply msg = Some r ->
  exists ls, r = join [NEWLINE] ls /\ splitlines r = ls /\ (1 <= length ls <= 4)%nat /\
    Forall (fun l => l <> [] /\ py_strip l = l /\ Forall (fun c => is_line_break c = false) l) ls.
Proof.
  unfold bullets_of_reply. destruct (nonempty (py_strip msg)); simpl; [|discriminate].
  set (lines := filter nonempty (map py_strip (splitlines (py_strip msg)))).
  assert (Hl : Forall (fun l => l <> [] /\ py_strip l = l /\ no_break l) lines).
  { apply Forall_forall. intros l Hin. apply list_elem_of_filter in Hin as [Hne Hin].
    apply list_elem_of_In, in_map_iff in Hin as [p [<- Hp]].
    pose proof (splitlines_aux_no_break [] (py_strip msg) (List.Forall_nil _)) as Hb.
    rewrite Forall_forall in Hb. specialize (Hb p (proj2 (list_elem_of_In _ _) Hp)).
    split; [destruct (py_strip p); [done|discriminate]|]. split; [apply py_strip_idem|].
    unfold no_break in *. rewrite Forall_forall in *. intros c Hc.
    apply Hb, list_elem_of_In, py_strip_sub, list_elem_of_In, Hc. }
  destruct lines as [|l0 ls0] eqn:E; [discriminate|]. intros [= <-].
  exists (firstn 4 (l0 :: ls0)). split; [done|].
  assert (Ht : Forall (fun l => l <> [] /\ py_strip l = l /\ no_break l) (firstn 4 (l0 :: ls0)))
    by (apply Forall_take; exact Hl).
  split; [apply (splitlines_join (firstn 4 (l0 :: ls0))); eapply Forall_impl; [exact Ht|]; intros ? [? [? ?]]; done|].
  split; [rewrite length_firstn; cbn [length]; lia|exact Ht].
Qed.

Lemma collapse_true_head s c t : collapse_ws_aux true s = c :: t -> is_space c = false.
Proof.
  induction s as [|d s IH]; simpl; [done|].
  destruct (is_space d) eqn:E; [exact IH|]. intros [= -> _]. exact E.
Qed.

Lemma collapse_ws_aux_norm b s : ws_norm (collapse_ws_aux b s) = true.
Proof.
  revert b. induction s as [|d s IH]; intros b; simpl; [done|].
  destruct (is_space d) eqn:E; [destruct b; [apply IH|]|].
  - cbn [ws_norm]. rewrite IH, andb_true_r.
    destruct (collapse_ws_aux true s) as [|c t] eqn:Ec; [done|].
    rewrite (collapse_true_head _ _ _ Ec). done.
  - cbn [ws_norm]. rewrite E, IH. done.
Qed.

Lemma ws_norm_prefix l1 l2 : ws_norm (l1 ++ l2) = true -> ws_norm l1 = true.
Proof.
  induction l1 as [|c l1 IH]; simpl; [done|]. rewrite !andb_true_iff. intros [H1 H2].
  split; [|auto]. destruct (is_space c); [|done].
  destruct l1 as [|d l1]; simpl in *; [rewrite andb_true_r in *; apply andb_true_iff in H1; tauto|exact H1].
Qed.

Lemma ws_norm_suffix l1 l2 : ws_norm (l1 ++ l2) = true -> ws_norm l2 = true.
Proof. induction l1 as [|c l1 IH]; simpl; [done|]. rewrite andb_true_iff. tauto. Qed.

Lemma collapse_true_false s : (forall c t, s = c :: t -> is_space c = false) ->
  collapse_ws_aux true s = collapse_ws_aux false s.
Proof. destruct s as [|c t]; [done|]. intros H. simpl. rewrite (H c t eq_refl). done. Qed.

Lemma ws_norm_collapse_id s : ws_norm s = true -> collapse_ws s = s.
Proof.
  unfold collapse_ws. induction s as [|c s IH]; simpl; [done|].
  rewrite andb_true_iff. intros [H1 H2]. destruct (is_space c) eqn:E.
  - apply andb_true_iff in H1 as [Hc Hd]. apply N.eqb_eq in Hc. subst c.
    rewrite collapse_true_false, IH by (done || (intros ? ? ->; apply negb_true_iff, Hd)).
    done.
  - rewrite IH by exact H2. done.
Qed.

Lemma hd_prefix (p : N -> bool) (l1 l2 : pystr) :
  (forall c t, l1 ++ l2 = c :: t -> p c = false) -> (forall (c : N) t, l1 = c :: t -> p c = false).
Proof. intros H c t ->. apply (H c (t ++ l2)). done. Qed.

Lemma rstrip_by_last p s l c : rstrip_by p s = l ++ [c] -> p c = false.
Proof.
  unfold rstrip_by. intros H. apply (f_equal (@rev N)) in H.
  rewrite rev_involutive, rev_app_distr in H. exact (lstrip_by_head _ _ _ _ H).
Qed.

Lemma rstrip_by_id p s : (forall l c, s = l ++ [c] -> p c = false) -> rstrip_by p s = s.
Proof.
  intros H. unfold rstrip_by. destruct (rev s) as [|c t] eqn:E.
  - simpl. apply (f_equal (@rev N)) in E. rewrite rev_involutive in E. done.
  - rewrite lstrip_by_id, <- E, rev_involutive; [done|].
    intros ? ? [= <- <-]. apply (H (rev t)).
    apply (f_equal (@rev N)) in E. rewrite rev_involutive in E. exact E.
Qed.

Lemma slice_to_prefix s k : exists post, s = slice_to s k ++ post.
Proof.
  unfold slice_to. destruct (0 <=? k); eexists; symmetry; apply firstn_skipn.
Qed.

Lemma quote_space c : is_space c = true -> (c =? 32)%N = true -> mem_chars QUOTE_CHARS c = true.
Proof. intros _ H. apply N.eqb_eq in H. subst. done. Qed.

Lemma trail_space c : is_title_trail c = false -> is_space c = false.
Proof. unfold is_title_trail. destruct (is_space c); done. Qed.

Lemma clean_title_normal strip_html raw max_len :
  let s := clean_title strip_html raw max_len in
  collapse_ws s = s /\ py_strip s = s /\
  (forall c t, s = c :: t -> mem_chars QUOTE_CHARS c = false).
Proof.
  intros s.
  set (s0 := collapse_ws (py_strip (strip_html raw))).
  assert (N0 : ws_norm s0 = true) by apply collapse_ws_aux_norm.
  set (s1 := lstrip_by (mem_chars QUOTE_CHARS) s0).
  assert (N1 : ws_norm s1 = true).
  { destruct (lstrip_by_suffix (mem_chars QUOTE_CHARS) s0) as [pre [Hs _]].
    fold s1 in Hs. apply (ws_norm_suffix pre). rewrite <- Hs. exact N0. }
  assert (H1 : forall c t, s1 = c :: t -> mem_chars QUOTE_CHARS c = false)
    by apply lstrip_by_head.
  set (s2 := rstrip_by (mem_chars QUOTE_CHARS) s1).
  destruct (rstrip_by_prefix (mem_chars QUOTE_CHARS) s1) as [post2 [E2 _]].
  fold s2 in E2.
  set (s3 := rstrip_by is_title_trail s2).
  destruct (rstrip_by_prefix is_title_trail s2) as [post3 [E3 _]].
  fold s3 in E3.
  assert (N3 : ws_norm s3 = true).
  { apply (ws_norm_prefix s3 post3). rewrite <- E3.
    apply (ws_norm_prefix s2 post2). rewrite <- E2. exact N1. }
  assert (H3 : forall c t, s3 = c :: t -> mem_chars QUOTE_CHARS c = false).
  { apply (hd_prefix _ s3 post3). rewrite <- E3. apply (hd_prefix _ s2 post2).
    rewrite <- E2. exact H1. }
  assert (Hgen : forall x post, s3 = x ++ post ->
            (forall l c, x = l ++ [c] -> is_space c = false) ->
            collapse_ws x = x /\ py_strip x = x /\
            (forall c t, x = c :: t -> mem_chars QUOTE_CHARS c = false)).
  { intros x post Ex Hl.
    assert (Nx : ws_norm x = true) by (apply (ws_norm_prefix x post); rewrite <- Ex; exact N3).
    assert (Hx : forall c t, x = c :: t -> mem_chars QUOTE_CHARS c = false)
      by (apply (hd_prefix _ x post); rewrite <- Ex; exact H3).
    split; [apply ws_norm_collapse_id, Nx|]. split; [|exact Hx].
    unfold py_strip. rewrite lstrip_by_id; [apply rstrip_by_id, Hl|].
    intros c t ->. specialize (Hx c t eq_refl). simpl in Nx.
    destruct (is_space c) eqn:Ec; [|done]. exfalso.
    apply andb_true_iff in Nx as [Nx _]. apply andb_true_iff in Nx as [Nx _].
    rewrite (quote_space c Ec Nx) in Hx. discriminate. }
  unfold s, clean_title. fold s0 s1 s2 s3.
  destruct (py_len s3 >? max_len).
  - destruct (slice_to_prefix s3 max_len) as [post4 E4].
    destruct (rstrip_by_prefix is_space (slice_to s3 max_len)) as [post5 [E5 _]].
    apply (Hgen _ (post5 ++ post4)).
    + unfold py_rstrip. rewrite app_assoc, <- E5. exact E4.
    + apply rstrip_by_last.
  - apply (Hgen s3 []); [symmetry; apply app_nil_r|].
    intros l c E. apply trail_space. rewrite E in E3. unfold s3 in E.
    exact (rstrip_by_last _ _ _ _ E).
Qed.

Lemma truthy_some o v : truthy o = Some v -> o = Some v.
Proof. destruct o as [[|? ?]|]; simpl; congruence. Qed.

Lemma llm_thread_title_clean strip_html llm_chat svc entry key t :
  truthy (llm_thread_title strip_html llm_chat svc entry key) = Some t ->
  exists msg, t = clean_title strip_html msg 90.
Proof.
  intros H. apply truthy_some in H. unfold llm_thread_title in H.
  destruct (truthy key); [|discriminate].
  destruct (llm_chat _ _ _ _) as [msg|]; [|discriminate].
  destruct (negb _); [discriminate|]. apply truthy_some in H. injection H as <-.
  exists msg. done.
Qed.

(** Whatever the services answer, [derive_thread_name] returns at most 90
    characters, in the normal form of [_clean_title]. *)
Theorem derive_thread_name_shape strip_html llm_chat env entry :
  let n := derive_thread_name strip_html llm_chat env entry in
  py_len n <= 90 /\ collapse_ws n = n /\ py_strip n = n /\
  (forall c t, n = c :: t -> mem_chars QUOTE_CHARS c = false).
Proof.
  intros n.
  assert (Hc : exists raw, n = clean_title strip_html raw 90).
  { unfold n, derive_thread_name, github_llm_thread_title, openai_llm_thread_title.
    destruct (truthy (llm_thread_title _ _ GitHubModels _ _)) eqn:E1;
      [eapply llm_thread_title_clean; exact E1|].
    destruct (truthy (llm_thread_title _ _ OpenAI _ _)) eqn:E2;
      [eapply llm_thread_title_clean; exact E2|].
    destruct (nonempty _); eexists; reflexivity. }
  destruct Hc as [raw ->].
  split; [apply clean_title_length; lia|]. apply clean_title_normal.
Qed.

(** ** Summaries *)



(** ** Classifier *)

(** In the tag loop of [is_copilot_tagged], a value that passes the exact
    test against [needles] also passes the substring test ["copilot" in
    val.lower()]: the exact test never decides the result. *)
Theorem needles_test_subsumed val :
  (nonempty val && existsb (pystr_eqb (py_lower val)) needles) = true ->
  contains (u "copilot") (py_lower val) = true.
Proof.
  intros H. rewrite <- key_hit_contains. unfold key_hit. rewrite H. reflexivity.
Qed.

(** ** Further properties: saved state, post-processing *)

(** Two calls of [save_state] on the same file amount to one call with
    both identifier lists, in either order. *)
Theorem save_state_twice a b f :
  save_state a (save_state b f) = save_state (b ++ a) f /\
  save_state a (save_state b f) = save_state b (save_state a f).
Proof.
  rewrite !save_state_compose. split; [done|].
  unfold save_state. f_equal. f_equal. f_equal. rewrite !list_to_set_app_L. set_solver.
Qed.

(** A summary reply that the post-processing of the two bulleted-summary
    functions accepts gives one to four non-empty, stripped lines with no
    line boundary, joined by line feeds; [splitlines] gives the lines back. *)
Theorem bullets_of_reply_lines msg r :
  bullets_of_reply msg = Some r ->
  exists ls, r = join [NEWLINE] ls /\ splitlines r = ls /\ (1 <= length ls <= 4)%nat /\
    Forall (fun l => l <> [] /\ py_strip l = l /\ Forall (fun c => is_line_break c = false) l) ls.
Proof. exact (bullets_lines msg r). Qed.

(** [_clean_title] returns a string that a second whitespace collapse and a
    second [strip] leave unchanged and that starts with no quote or space. *)
Theorem clean_title_shape strip_html raw max_len :
  let s := clean_title strip_html raw max_len in
  collapse_ws s = s /\ py_strip s = s /\
  (forall c t, s = c :: t -> mem_chars QUOTE_CHARS c = false).
Proof. exact (clean_title_normal strip_html raw max_len). Qed.

(** ** Instances of the further properties *)

Lemma delivered_not_reposted_witness :
  FORCE_POST (cx_env None None None) = false /\
  delivered (w_log (snd (cx_run (cx_env None None None) cx_feed1 FileMissing http_ok))) 0 /\
  (0 < length (capped cx_datetime (cx_env None None None) (load_state FileMissing) cx_feed1))%nat.
Proof.
  assert (Hf : FORCE_POST (cx_env None None None) = false) by (vm_compute; reflexivity).
  assert (Hd : delivered (w_log (snd (cx_run (cx_env None None None) cx_feed1 FileMissing http_ok))) 0).
  { exists [0%nat], (Some (u "Copilot one")). vm_compute. split; left; reflexivity. }
  split; [exact Hf|]. split; [exact Hd|].
  exact (proj1 (delivered_not_reposted strip_html_model no_llm cx_datetime cx_isoformat
                  (cx_env None None None) cx_feed1 FileMissing http_ok Hf 0 Hd)).
Defined.


Lemma bullets_of_reply_lines_witness :
  bullets_of_reply (u " - one" ++ [NEWLINE; NEWLINE] ++ u "- two ")
    = Some (u "- one" ++ [NEWLINE] ++ u "- two") /\
  exists ls, splitlines (u "- one" ++ [NEWLINE] ++ u "- two") = ls /\ (1 <= length ls <= 4)%nat.
Proof.
  assert (H : bullets_of_reply (u " - one" ++ [NEWLINE; NEWLINE] ++ u "- two ")
              = Some (u "- one" ++ [NEWLINE] ++ u "- two")) by (vm_compute; reflexivity).
  split; [exact H|].
  destruct (bullets_of_reply_lines _ _ H) as [ls [_ [Hs [Hl _]]]].
  exists ls. split; [exact Hs|exact Hl].
Defined.

Lemma needles_test_subsumed_witness :
  (nonempty (u "GitHub Copilot") && existsb (pystr_eqb (py_lower (u "GitHub Copilot"))) needles)
    = true /\
  contains (u "copilot") (py_lower (u "GitHub Copilot")) = true.
Proof.
  assert (H : (nonempty (u "GitHub Copilot")
               && existsb (pystr_eqb (py_lower (u "GitHub Copilot"))) needles) = true)
    by (vm_compute; reflexivity).
  split; [exact H|exact (needles_test_subsumed _ H)].
Defined.
